(** * continuous-claude dashboard backend: connection registry, event
    broadcaster, task-queue aggregation and task status updates.

    Shallow embedding of
      - dashboard/backend/routes/websocket.py  (ConnectionManager, /ws handler)
      - dashboard/backend/routes/tasks.py      (get_task_queue, update_task)
      - dashboard/backend/main.py              (get_dashboard_state)
    followed by the properties of the design document checked on it. *)

From Stdlib Require Import QArith.
From stdpp Require Import gmap strings list fin_maps sorting.

Open Scope string_scope.
Open Scope list_scope.

(* ===================================================================== *)
(** ** Python values that occur in the modelled code                      *)
(* ===================================================================== *)

(** The result of [json.loads]: numbers are the integer literals (a literal
    with a fraction or an exponent is not in the modelled fragment); an
    object is the list of its fields, looked up by first match. *)
#[warnings="-register-all"]
Inductive json : Type :=
  | JNull
  | JBool (b : bool)
  | JNum (n : Z)
  | JStr (s : string)
  | JArr (items : list json)
  | JObj (fields : list (string * json)).

(** Keys of [session_connections].  The annotation says [str], but the
    subscribe handler stores whatever hashable value the message carried,
    so [None] and integers are keys too ([True] and [False] hash and
    compare as 1 and 0). *)
Inductive skey : Type :=
  | KStr (s : string)
  | KInt (n : Z)
  | KNone.

#[global] Instance skey_eq_dec : EqDecision skey.
Proof. solve_decision. Defined.

Definition skey_encode (k : skey) : string + (Z + unit) :=
  match k with
  | KStr s => inl s
  | KInt n => inr (inl n)
  | KNone => inr (inr tt)
  end.

Definition skey_decode (x : string + (Z + unit)) : skey :=
  match x with
  | inl s => KStr s
  | inr (inl n) => KInt n
  | inr (inr _) => KNone
  end.

#[global] Instance skey_countable : Countable skey.
Proof.
  apply (inj_countable' skey_encode skey_decode).
  by intros [].
Defined.

(** Python truthiness, as used by [if session_id]. *)
Definition truthy (k : skey) : bool :=
  match k with
  | KStr s => negb (String.eqb s "")
  | KInt n => negb (Z.eqb n 0)
  | KNone => false
  end.

(** [hash(v)] for a loaded JSON value: lists and dicts are unhashable. *)
Definition hashable (v : json) : option skey :=
  match v with
  | JNull => Some KNone
  | JBool b => Some (KInt (if b then 1 else 0))
  | JNum n => Some (KInt n)
  | JStr s => Some (KStr s)
  | JArr _ | JObj _ => None
  end.

(** [dict.get] / [in] / [[]] on a loaded object. *)
Fixpoint dict_get (fields : list (string * json)) (k : string) : option json :=
  match fields with
  | [] => None
  | (k', v) :: rest => if String.eqb k' k then Some v else dict_get rest k
  end.

(* ===================================================================== *)
(** ** routes/websocket.py : ConnectionManager                            *)
(* ===================================================================== *)

Module Ws.

(** A [WebSocket] object, identified by the transport it wraps. *)
Definition WebSocket := nat.

Record ConnectionManager : Type := mkManager {
  active_connections : list WebSocket;
  session_connections : gmap skey (list WebSocket)
}.

(** [ConnectionManager.__init__] *)
Definition init : ConnectionManager :=
  {| active_connections := []; session_connections := ∅ |}.

(** [list.remove(x)]: drops the first occurrence only.  (Python raises
    [ValueError] when there is none; every call site checks [x in l]
    first, and then this function is the identity.) *)
Fixpoint list_remove (x : WebSocket) (l : list WebSocket) : list WebSocket :=
  match l with
  | [] => []
  | y :: l' => if decide (x = y) then l' else y :: list_remove x l'
  end.

(** [self.session_connections[session_id]] where the key is known to be
    present; [[]] stands for the absent key in the views below. *)
Definition session_list (m : ConnectionManager) (sid : skey) : list WebSocket :=
  default [] (session_connections m !! sid).

(** The two statements
      [if session_id not in d: d[session_id] = []]
      [d[session_id].append(websocket)]
    shared by [connect] and by the subscribe branch of the /ws handler. *)
Definition index_append (sid : skey) (ws : WebSocket)
    (d : gmap skey (list WebSocket)) : gmap skey (list WebSocket) :=
  let d1 := match d !! sid with
            | None => <[sid := []]> d
            | Some _ => d
            end in
  <[sid := default [] (d1 !! sid) ++ [ws]]> d1.

(** [ConnectionManager.connect(websocket, session_id=None)] *)
Definition connect (ws : WebSocket) (session_id : skey)
    (m : ConnectionManager) : ConnectionManager :=
  let active := active_connections m ++ [ws] in
  if truthy session_id
  then {| active_connections := active;
          session_connections := index_append session_id ws (session_connections m) |}
  else {| active_connections := active;
          session_connections := session_connections m |}.

(** [ConnectionManager.disconnect(websocket, session_id=None)] *)
Definition disconnect (ws : WebSocket) (session_id : skey)
    (m : ConnectionManager) : ConnectionManager :=
  let active :=
    if bool_decide (ws ∈ active_connections m)
    then list_remove ws (active_connections m)
    else active_connections m in
  let d := session_connections m in
  let d' :=
    if truthy session_id then
      match d !! session_id with
      | Some l =>
          let l1 := if bool_decide (ws ∈ l) then list_remove ws l else l in
          match l1 with
          | [] => delete session_id d
          | _ :: _ => <[session_id := l1]> d
          end
      | None => d
      end
    else d in
  {| active_connections := active; session_connections := d' |}.

(** What goes over the wire ([json.dumps] of these dictionaries). *)
Inductive wire : Type :=
  | Envelope (event : string) (data : json) (session_id : option skey) (timestamp : Z)
  | Subscribed (session_id : json)
  | Pong.

(** What a publish call does, in program order. *)
Inductive action : Type :=
  | Sent (c : WebSocket) (message : wire)        (* send_text returned *)
  | SendFailed (c : WebSocket) (message : wire)  (* send_text raised   *)
  | Removed (c : WebSocket) (session_id : skey). (* self.disconnect(c, session_id) *)

Section Transport.

(** Whether [connection.send_text] returns ([true]) or raises ([false]). *)
Variable send_ok : WebSocket → bool.

(** The delivery loop
      [for connection in conns: try: send_text(message)
                                except Exception: disconnected.append(connection)]
    returning the calls made and the [disconnected] list. *)
Fixpoint deliver (message : wire) (conns : list WebSocket)
    : list action * list WebSocket :=
  match conns with
  | [] => ([], [])
  | connection :: rest =>
      let '(tr, disconnected) := deliver message rest in
      if send_ok connection
      then (Sent connection message :: tr, disconnected)
      else (SendFailed connection message :: tr, connection :: disconnected)
  end.

(** [for conn in disconnected: self.disconnect(conn, session_id)] *)
Fixpoint cleanup (session_id : skey) (disconnected : list WebSocket)
    (m : ConnectionManager) : ConnectionManager * list action :=
  match disconnected with
  | [] => (m, [])
  | conn :: rest =>
      let '(m', tr) := cleanup session_id rest (disconnect conn session_id m) in
      (m', Removed conn session_id :: tr)
  end.

(** [ConnectionManager.broadcast(event, data)]; [now] is [datetime.utcnow()]. *)
Definition broadcast (event : string) (data : json) (now : Z)
    (m : ConnectionManager) : ConnectionManager * list action :=
  let message := Envelope event data None now in
  let '(tr, disconnected) := deliver message (active_connections m) in
  let '(m', tr') := cleanup KNone disconnected m in
  (m', tr ++ tr').

(** [ConnectionManager.broadcast_to_session(session_id, event, data)] *)
Definition broadcast_to_session (session_id : skey) (event : string)
    (data : json) (now : Z) (m : ConnectionManager)
    : ConnectionManager * list action :=
  match session_connections m !! session_id with
  | None => (m, [])
  | Some conns =>
      let message := Envelope event data (Some session_id) now in
      let '(tr, disconnected) := deliver message conns in
      let '(m', tr') := cleanup session_id disconnected m in
      (m', tr ++ tr')
  end.

End Transport.

(* --------------------------------------------------------------------- *)
(** *** The endpoints                                                     *)
(* --------------------------------------------------------------------- *)

(** Exceptions that can leave the body of the receive loop. *)
Inductive exn : Type := AttributeError | TypeError.

(** A text frame is represented by what [json.loads] makes of it. *)
Inductive loads_result : Type :=
  | JSONDecodeError
  | Loaded (message : json).

(** What [websocket.receive_text()] yields: a text frame, or
    [WebSocketDisconnect] when the peer has gone. *)
Inductive frame : Type :=
  | Text (data : loads_result)
  | Close.

(** [message.get("action") == name] on a loaded object. *)
Definition action_is (fields : list (string * json)) (name : string) : bool :=
  match dict_get fields "action" with
  | Some (JStr a) => String.eqb a name
  | _ => false
  end.

(** One pass through the body of [while True] in [websocket_endpoint],
    after [receive_text] returned: the new registry, the replies sent on
    [websocket], and the exception that escapes the inner [try], if any.
    The connection is open, so the [send_text] of a reply returns. *)
Definition handle_text (websocket : WebSocket) (data : loads_result)
    (m : ConnectionManager) : ConnectionManager * list wire * option exn :=
  match data with
  | JSONDecodeError => (m, [], None)                 (* pass *)
  | Loaded (JObj fields) =>
      match (if action_is fields "subscribe" then dict_get fields "session_id" else None) with
      | Some v =>
          match hashable v with
          | Some session_id =>
              ({| active_connections := active_connections m;
                  session_connections :=
                    index_append session_id websocket (session_connections m) |},
               [Subscribed v], None)
          | None => (m, [], Some TypeError)          (* unhashable key *)
          end
      | None =>
          if action_is fields "ping" then (m, [Pong], None) else (m, [], None)
      end
  | Loaded _ => (m, [], Some AttributeError)         (* message.get *)
  end.

(** The same for [session_websocket_endpoint], which only answers ping. *)
Definition session_handle_text (data : loads_result) : list wire * option exn :=
  match data with
  | JSONDecodeError => ([], None)
  | Loaded (JObj fields) =>
      if action_is fields "ping" then ([Pong], None) else ([], None)
  | Loaded _ => ([], Some AttributeError)
  end.

(** How a run of an endpoint over a finite sequence of frames stands. *)
Inductive conn_status : Type :=
  | Receiving          (* still in the loop, awaiting [receive_text] *)
  | Disconnected       (* [WebSocketDisconnect] caught, [manager.disconnect] called *)
  | Raised (e : exn).  (* an exception left the coroutine *)

(** The [while True] loop of [websocket_endpoint] over the frames received. *)
Fixpoint websocket_loop (websocket : WebSocket) (frames : list frame)
    (m : ConnectionManager) : ConnectionManager * list wire * conn_status :=
  match frames with
  | [] => (m, [], Receiving)
  | Close :: _ => (disconnect websocket KNone m, [], Disconnected)
  | Text data :: rest =>
      match handle_text websocket data m with
      | (m1, replies, Some e) => (m1, replies, Raised e)
      | (m1, replies, None) =>
          let '(m2, replies', st) := websocket_loop websocket rest m1 in
          (m2, replies ++ replies', st)
      end
  end.

(** [websocket_endpoint(websocket)] *)
Definition websocket_endpoint (websocket : WebSocket) (frames : list frame)
    (m : ConnectionManager) : ConnectionManager * list wire * conn_status :=
  websocket_loop websocket frames (connect websocket KNone m).

(** The loop of [session_websocket_endpoint]. *)
Fixpoint session_websocket_loop (websocket : WebSocket) (session_id : skey)
    (frames : list frame) (m : ConnectionManager)
    : ConnectionManager * list wire * conn_status :=
  match frames with
  | [] => (m, [], Receiving)
  | Close :: _ => (disconnect websocket session_id m, [], Disconnected)
  | Text data :: rest =>
      match session_handle_text data with
      | (replies, Some e) => (m, replies, Raised e)
      | (replies, None) =>
          let '(m2, replies', st) :=
            session_websocket_loop websocket session_id rest m in
          (m2, replies ++ replies', st)
      end
  end.

(** [session_websocket_endpoint(websocket, session_id)] *)
Definition session_websocket_endpoint (websocket : WebSocket) (session_id : skey)
    (frames : list frame) (m : ConnectionManager)
    : ConnectionManager * list wire * conn_status :=
  session_websocket_loop websocket session_id frames (connect websocket session_id m).

(** The subscribe branch on its own: what a well-formed
    [{"action": "subscribe", "session_id": sid}] does to the registry. *)
Definition subscribe (websocket : WebSocket) (session_id : skey)
    (m : ConnectionManager) : ConnectionManager :=
  {| active_connections := active_connections m;
     session_connections := index_append session_id websocket (session_connections m) |}.

(* --------------------------------------------------------------------- *)
(** *** Views used by the statements                                      *)
(* --------------------------------------------------------------------- *)


(** The subscription set of a connection, as the registry holds it. *)
Definition subscribed (m : ConnectionManager) (c : WebSocket) (sid : skey) : Prop :=
  c ∈ session_list m sid.

(** The connections on which [send_text] was called, in order, and those
    on which it returned. *)
Definition attempted (tr : list action) : list WebSocket :=
  omap (λ a, match a with
             | Sent c _ | SendFailed c _ => Some c
             | Removed _ _ => None
             end) tr.

Definition received (tr : list action) : list WebSocket :=
  omap (λ a, match a with Sent c _ => Some c | _ => None end) tr.

(** Number of occurrences of [c] in a list. *)
Definition occurrences (c : WebSocket) (l : list WebSocket) : nat :=
  length (filter (λ x, x = c) l).

(** Operations on the registry, for reachability. *)
Inductive op : Type :=
  | OpConnect (ws : WebSocket) (session_id : skey)
  | OpSubscribe (ws : WebSocket) (session_id : skey)
  | OpDisconnect (ws : WebSocket) (session_id : skey)
  | OpBroadcast (send_ok : WebSocket → bool) (event : string) (data : json) (now : Z)
  | OpBroadcastToSession (send_ok : WebSocket → bool) (session_id : skey)
      (event : string) (data : json) (now : Z).

Definition step (o : op) (m : ConnectionManager) : ConnectionManager :=
  match o with
  | OpConnect ws sid => connect ws sid m
  | OpSubscribe ws sid => subscribe ws sid m
  | OpDisconnect ws sid => disconnect ws sid m
  | OpBroadcast ok ev d now => (broadcast ok ev d now m).1
  | OpBroadcastToSession ok sid ev d now => (broadcast_to_session ok sid ev d now m).1
  end.

Definition run (ops : list op) (m : ConnectionManager) : ConnectionManager :=
  foldl (λ m o, step o m) m ops.

(** Whether an operation puts [c] in the list of [sid], and whether it is
    one of those that take entries out. *)
Definition subscribes_to (c : WebSocket) (sid : skey) (o : op) : bool :=
  match o with
  | OpConnect ws k => bool_decide (ws = c ∧ k = sid) && truthy k
  | OpSubscribe ws k => bool_decide (ws = c ∧ k = sid)
  | _ => false
  end.

Definition removes (o : op) : bool :=
  match o with
  | OpConnect _ _ | OpSubscribe _ _ => false
  | _ => true
  end.

(** Every list stored in the session index is non-empty. *)
Definition no_empty_session (m : ConnectionManager) : Prop :=
  map_Forall (λ _ l, l ≠ []) (session_connections m).

(** The call made on one target by the delivery loop. *)
Definition send_action (send_ok : WebSocket → bool) (message : wire)
    (c : WebSocket) : action :=
  if send_ok c then Sent c message else SendFailed c message.


End Ws.

(* ===================================================================== *)
(** ** routes/tasks.py and main.py : task queue, snapshot, status updates *)
(* ===================================================================== *)

Module Tasks.

(** A row of the [tasks] table (db/models.py).  [datetime] values are
    instants on an integer clock; nullable columns are options. *)
Record Task : Type := mkTask {
  id : string;
  session_id : string;
  agent_id : option string;
  type : string;
  status : option string;
  priority : Z;
  payload : option json;
  result : option json;
  created_at : Z;
  started_at : option Z;
  completed_at : option Z
}.

(** [TaskInfo] (models/schemas.py): [status] is a required [str]. *)
Record TaskInfo : Type := mkTaskInfo {
  i_type : string;
  i_priority : Z;
  i_payload : option json;
  i_id : string;
  i_status : string;
  i_agent_id : option string;
  i_result : option json;
  i_created_at : Z;
  i_started_at : option Z;
  i_completed_at : option Z
}.

(** [TaskInfo.model_validate(task)]: copies the attributes; [None] stands
    for the [ValidationError] raised when [status] is null. *)
Definition model_validate (task : Task) : option TaskInfo :=
  match status task with
  | None => None
  | Some s =>
      Some {| i_type := type task; i_priority := priority task;
              i_payload := payload task; i_id := id task; i_status := s;
              i_agent_id := agent_id task; i_result := result task;
              i_created_at := created_at task;
              i_started_at := started_at task;
              i_completed_at := completed_at task |}
  end.

(** [TaskQueue] (models/schemas.py) *)
Record TaskQueue : Type := mkQueue {
  pending : list TaskInfo;
  in_progress : list TaskInfo;
  completed : list TaskInfo;
  failed : list TaskInfo
}.

Definition empty_queue : TaskQueue :=
  {| pending := []; in_progress := []; completed := []; failed := [] |}.

(** [task.status == name] *)
Definition status_is (name : string) (task : Task) : bool :=
  bool_decide (status task = Some name).

(** The body of [for task in all_tasks] in [get_task_queue] and in
    [get_dashboard_state] (the two loops are the same text). *)
Definition queue_step (queue : TaskQueue) (task : Task) : option TaskQueue :=
  match model_validate task with
  | None => None
  | Some task_info =>
      Some (
        if status_is "pending" task then
          {| pending := pending queue ++ [task_info];
             in_progress := in_progress queue;
             completed := completed queue; failed := failed queue |}
        else if status_is "in_progress" task then
          {| pending := pending queue;
             in_progress := in_progress queue ++ [task_info];
             completed := completed queue; failed := failed queue |}
        else if status_is "completed" task then
          {| pending := pending queue; in_progress := in_progress queue;
             completed := completed queue ++ [task_info];
             failed := failed queue |}
        else if status_is "failed" task then
          {| pending := pending queue; in_progress := in_progress queue;
             completed := completed queue;
             failed := failed queue ++ [task_info] |}
        else queue)
  end.

Fixpoint queue_loop (queue : TaskQueue) (all_tasks : list Task) : option TaskQueue :=
  match all_tasks with
  | [] => Some queue
  | task :: rest =>
      match queue_step queue task with
      | None => None
      | Some queue' => queue_loop queue' rest
      end
  end.

(** [get_task_queue], given the rows the ordered query returned. *)
Definition get_task_queue (all_tasks : list Task) : option TaskQueue :=
  queue_loop empty_queue all_tasks.

(** [int / int] in Python is the quotient of the two integers; it is kept
    here as the rational itself (the rounding to a double is below the
    model). *)
Definition truediv (a b : nat) : Q := inject_Z (Z.of_nat a) / inject_Z (Z.of_nat b).

(** The [success_rate] lines of [get_dashboard_state]. *)
Definition success_rate (all_tasks : list Task) : Q :=
  let completed_tasks := filter (λ t, status t = Some "completed") all_tasks in
  let failed_tasks := filter (λ t, status t = Some "failed") all_tasks in
  let total_tasks := (length completed_tasks + length failed_tasks)%nat in
  if bool_decide (0 < total_tasks)%nat
  then truediv (length completed_tasks) total_tasks
  else 0%Q.

(** The part of [DashboardState] built from the task query. *)
Record DashboardState : Type := mkState {
  tasks : TaskQueue;
  metrics_success_rate : Q
}.

Inductive error : Type :=
  | HTTP404            (* HTTPException(status_code=404) *)
  | ValidationError.   (* raised by model_validate       *)

(** [get_dashboard_state]: [session_found] is whether the session query
    returned a row, [all_tasks] what the ordered task query returned.  The
    agent, message, log and pull-request reads and the metrics derived
    from them do not touch the task data and are left out. *)
Definition get_dashboard_state (session_found : bool) (all_tasks : list Task)
    : error + DashboardState :=
  if negb session_found then inl HTTP404
  else match queue_loop empty_queue all_tasks with
       | None => inl ValidationError
       | Some task_queue =>
           inr {| tasks := task_queue;
                  metrics_success_rate := success_rate all_tasks |}
       end.

(** The order of the task query:
    [order_by(Task.priority.desc(), Task.created_at)]. *)
Definition fetch_order (t1 t2 : Task) : Prop :=
  (priority t2 < priority t1)%Z ∨
  (priority t1 = priority t2 ∧ (created_at t1 ≤ created_at t2)%Z).

(** The same order read on the [TaskInfo] copies. *)
Definition info_order (t1 t2 : TaskInfo) : Prop :=
  (i_priority t2 < i_priority t1)%Z ∨
  (i_priority t1 = i_priority t2 ∧ (i_created_at t1 ≤ i_created_at t2)%Z).

(* --------------------------------------------------------------------- *)
(** *** update_task                                                       *)
(* --------------------------------------------------------------------- *)

(** [update_data.model_dump(exclude_unset=True)]: a field is absent
    ([None]) or present with a value that may be null. *)
Record TaskUpdate : Type := mkUpdate {
  u_status : option (option string);
  u_agent_id : option (option string);
  u_result : option (option json)
}.

Definition set_started_at (v : option Z) (t : Task) : Task :=
  mkTask (id t) (session_id t) (agent_id t) (type t) (status t) (priority t)
         (payload t) (result t) (created_at t) v (completed_at t).

Definition set_completed_at (v : option Z) (t : Task) : Task :=
  mkTask (id t) (session_id t) (agent_id t) (type t) (status t) (priority t)
         (payload t) (result t) (created_at t) (started_at t) v.

Definition set_status (v : option string) (t : Task) : Task :=
  mkTask (id t) (session_id t) (agent_id t) (type t) v (priority t)
         (payload t) (result t) (created_at t) (started_at t) (completed_at t).

Definition set_agent_id (v : option string) (t : Task) : Task :=
  mkTask (id t) (session_id t) v (type t) (status t) (priority t)
         (payload t) (result t) (created_at t) (started_at t) (completed_at t).

Definition set_result (v : option json) (t : Task) : Task :=
  mkTask (id t) (session_id t) (agent_id t) (type t) (status t) (priority t)
         (payload t) v (created_at t) (started_at t) (completed_at t).

(** The "Handle status transitions" block; [now] is [datetime.utcnow()]. *)
Definition status_transition (now : Z) (update_dict : TaskUpdate) (task : Task) : Task :=
  match u_status update_dict with
  | None => task
  | Some new_status =>
      if bool_decide (new_status = Some "in_progress")
         && bool_decide (started_at task = None)
      then set_started_at (Some now) task
      else if (bool_decide (new_status = Some "completed")
               || bool_decide (new_status = Some "failed"))
              && bool_decide (completed_at task = None)
      then set_completed_at (Some now) task
      else task
  end.

(** [for field, value in update_dict.items(): setattr(task, field, value)] *)
Definition apply_fields (update_dict : TaskUpdate) (task : Task) : Task :=
  let t1 := match u_status update_dict with
            | Some v => set_status v task | None => task end in
  let t2 := match u_agent_id update_dict with
            | Some v => set_agent_id v t1 | None => t1 end in
  match u_result update_dict with
  | Some v => set_result v t2 | None => t2 end.

(** What [update_task] does to the row it found. *)
Definition update_row (now : Z) (update_dict : TaskUpdate) (task : Task) : Task :=
  apply_fields update_dict (status_transition now update_dict task).

(** [update_task(task_id, update_data)] on the table, keyed by [id]:
    404 when there is no such row, else the committed table and the row. *)
Definition update_task (db : gmap string Task) (task_id : string)
    (update_dict : TaskUpdate) (now : Z) : error + (gmap string Task * Task) :=
  match db !! task_id with
  | None => inl HTTP404
  | Some task =>
      let task' := update_row now update_dict task in
      inr (<[task_id := task']> db, task')
  end.

(* --------------------------------------------------------------------- *)
(** *** Views used by the statements                                      *)
(* --------------------------------------------------------------------- *)

(** The fetched sequence restricted to one status, order kept. *)
Definition bucket (name : string) (infos : list TaskInfo) : list TaskInfo :=
  filter (λ i, i_status i = name) infos.

(** A queue with the four restrictions of [infos] appended. *)
Definition queue_app (queue : TaskQueue) (infos : list TaskInfo) : TaskQueue :=
  {| pending := pending queue ++ bucket "pending" infos;
     in_progress := in_progress queue ++ bucket "in_progress" infos;
     completed := completed queue ++ bucket "completed" infos;
     failed := failed queue ++ bucket "failed" infos |}.

Definition queue_of (infos : list TaskInfo) : TaskQueue :=
  {| pending := bucket "pending" infos;
     in_progress := bucket "in_progress" infos;
     completed := bucket "completed" infos;
     failed := bucket "failed" infos |}.

(** The four values the [status] column is documented to take. *)
Definition known_status (s : string) : Prop :=
  s = "pending" ∨ s = "in_progress" ∨ s = "completed" ∨ s = "failed".

(** All four buckets of a queue, one after the other. *)
Definition all_buckets (queue : TaskQueue) : list TaskInfo :=
  pending queue ++ in_progress queue ++ completed queue ++ failed queue.

End Tasks.

(* ===================================================================== *)
(** ** Sample data                                                        *)
(* ===================================================================== *)

Module Samples.
Import Ws Tasks.

Definition S1 : skey := KStr "S1".
Definition S2 : skey := KStr "S2".

(** [{"action": "subscribe", "session_id": "S1"}] *)
Definition subscribe_S1 : frame :=
  Text (Loaded (JObj [("action", JStr "subscribe"); ("session_id", JStr "S1")])).

(** Connection 1 attaches to /ws, subscribes to S1, then goes away. *)
Definition gone_after_subscribe : ConnectionManager :=
  (websocket_endpoint 1 [subscribe_S1; Close] init).1.1.

(** Connection 1 attaches to /ws and subscribes to S1 once, or twice. *)
Definition subscribed_once : ConnectionManager :=
  (websocket_endpoint 1 [subscribe_S1] init).1.1.
Definition subscribed_twice : ConnectionManager :=
  (websocket_endpoint 1 [subscribe_S1; subscribe_S1] init).1.1.

(** A on /ws subscribed to S1, B on /ws with no subscription, C on /ws/S2. *)
Definition A : WebSocket := 1.
Definition B : WebSocket := 2.
Definition C : WebSocket := 3.
Definition three_observers : ConnectionManager :=
  let m1 := (websocket_endpoint A [subscribe_S1] init).1.1 in
  let m2 := (websocket_endpoint B [] m1).1.1 in
  (session_websocket_endpoint C S2 [] m2).1.1.

(** Connection 1 on /ws, subscribed to S1 and to S2. *)
Definition subscribe_S2 : frame :=
  Text (Loaded (JObj [("action", JStr "subscribe"); ("session_id", JStr "S2")])).
Definition subscribed_both : ConnectionManager :=
  (websocket_endpoint 1 [subscribe_S1; subscribe_S2] init).1.1.

(** A text frame holding the JSON document [[]]. *)
Definition empty_array_frame : frame := Text (Loaded (JArr [])).

Definition all_up : WebSocket → bool := λ _, true.
Definition only_B_down : WebSocket → bool := λ c, negb (Nat.eqb c B).

Definition sample_task (name : string) (p : Z) (st : option string)
    (created : Z) (started completed : option Z) : Task :=
  {| id := name; session_id := "S1"; agent_id := None; type := "feature";
     status := st; priority := p; payload := None; result := None;
     created_at := created; started_at := started; completed_at := completed |}.

(** The scenario of the design document: three tasks in fetch order. *)
Definition task1 := sample_task "task1" 9 (Some "pending") 10 None None.
Definition task2 := sample_task "task2" 5 (Some "completed") 11 (Some 100%Z) (Some 130%Z).
Definition task3 := sample_task "task3" 5 (Some "failed") 12 None None.
Definition scenario_tasks : list Task := [task1; task2; task3].

(** A task whose status was PATCHed to a string outside the four. *)
Definition task_cancelled := sample_task "task4" 5 (Some "cancelled") 13 None None.

Definition set_in_progress : TaskUpdate :=
  {| u_status := Some (Some "in_progress"); u_agent_id := None; u_result := None |}.
Definition set_completed : TaskUpdate :=
  {| u_status := Some (Some "completed"); u_agent_id := None; u_result := None |}.

Definition sample_db : gmap string Task := {[ "task2" := task2 ]}.

End Samples.

(* ===================================================================== *)
(** ** routes/websocket.py : the event broadcasting functions             *)
(* ===================================================================== *)

Module Emit.
Import Ws.

Section Emit.

Variable send_ok : WebSocket → bool.

(** Python floats and the way [json.dumps] writes them. *)
Variable float : Type.
Variable json_of_float : float → json.

(** [datetime.isoformat()] *)
Variable isoformat : Z → string.

(** [if v is not None: data[key] = v] *)
Definition optional_key {A : Type} (key : string) (to_json : A → json)
    (v : option A) : list (string * json) :=
  match v with
  | Some x => [(key, to_json x)]
  | None => []
  end.

(** A value that may be [None], written as it is ([null] when absent). *)
Definition nullable {A : Type} (to_json : A → json) (v : option A) : json :=
  match v with
  | Some x => to_json x
  | None => JNull
  end.

(** [emit_agent_status_changed(session_id, agent_id, status, iteration, cost)] *)
Definition emit_agent_status_changed (session_id agent_id status : string)
    (iteration : option Z) (cost : option float) (now : Z)
    (m : ConnectionManager) : ConnectionManager * list action :=
  let data := [("agent_id", JStr agent_id); ("status", JStr status)]
              ++ optional_key "iteration" JNum iteration
              ++ optional_key "cost" json_of_float cost in
  broadcast_to_session send_ok (KStr session_id) "agent.status_changed"
    (JObj data) now m.

(** [emit_task_progress(session_id, task_id, status, progress)] *)
Definition emit_task_progress (session_id task_id status : string)
    (progress : option float) (now : Z)
    (m : ConnectionManager) : ConnectionManager * list action :=
  let data := [("task_id", JStr task_id); ("status", JStr status)]
              ++ optional_key "progress" json_of_float progress in
  broadcast_to_session send_ok (KStr session_id) "task.progress_updated"
    (JObj data) now m.

(** [emit_message_sent(session_id, from_agent, to_agent, message_type, subject)] *)
Definition emit_message_sent (session_id from_agent to_agent message_type : string)
    (subject : option string) (now : Z)
    (m : ConnectionManager) : ConnectionManager * list action :=
  broadcast_to_session send_ok (KStr session_id) "message.sent"
    (JObj [("from", JStr from_agent); ("to", JStr to_agent);
           ("type", JStr message_type); ("subject", nullable JStr subject)])
    now m.

(** [emit_pr_event(session_id, event_type, pr_number, title)] *)
Definition emit_pr_event (session_id event_type : string) (pr_number : Z)
    (title : option string) (now : Z)
    (m : ConnectionManager) : ConnectionManager * list action :=
  broadcast_to_session send_ok (KStr session_id) ("pr." +:+ event_type)
    (JObj [("pr_number", JNum pr_number); ("title", nullable JStr title)])
    now m.

(** [emit_cost_updated(session_id, total_cost, agent_costs)] *)
Definition emit_cost_updated (session_id : string) (total_cost : float)
    (agent_costs : list (string * float)) (now : Z)
    (m : ConnectionManager) : ConnectionManager * list action :=
  broadcast_to_session send_ok (KStr session_id) "cost.updated"
    (JObj [("total_cost", json_of_float total_cost);
           ("agent_costs",
            JObj (map (λ kv, (kv.1, json_of_float kv.2)) agent_costs))])
    now m.

(** [emit_log_entry(session_id, agent_id, level, message, data)];
    [stamp] is the [datetime.utcnow()] read for the payload, [now] the one
    read by [broadcast_to_session]. *)
Definition emit_log_entry (session_id : string) (agent_id : option string)
    (level message : string) (data : option json) (stamp now : Z)
    (m : ConnectionManager) : ConnectionManager * list action :=
  broadcast_to_session send_ok (KStr session_id) "log.entry"
    (JObj [("agent_id", nullable JStr agent_id); ("level", JStr level);
           ("message", JStr message); ("data", nullable (λ d, d) data);
           ("timestamp", JStr (isoformat stamp))])
    now m.

(** [emit_session_complete(session_id, status, summary)] *)
Definition emit_session_complete (session_id status : string) (summary : json)
    (now : Z) (m : ConnectionManager) : ConnectionManager * list action :=
  broadcast_to_session send_ok (KStr session_id) "session.complete"
    (JObj [("status", JStr status); ("summary", summary)])
    now m.

(** A call of one of the seven functions, to speak of them all at once. *)
Inductive emission : Type :=
  | AgentStatusChanged (session_id agent_id status : string)
      (iteration : option Z) (cost : option float)
  | TaskProgress (session_id task_id status : string) (progress : option float)
  | MessageSent (session_id from_agent to_agent message_type : string)
      (subject : option string)
  | PrEvent (session_id event_type : string) (pr_number : Z) (title : option string)
  | CostUpdated (session_id : string) (total_cost : float)
      (agent_costs : list (string * float))
  | LogEntry (session_id : string) (agent_id : option string)
      (level message : string) (data : option json) (stamp : Z)
  | SessionComplete (session_id status : string) (summary : json).

Definition emit (e : emission) (now : Z) (m : ConnectionManager)
    : ConnectionManager * list action :=
  match e with
  | AgentStatusChanged s a st it c => emit_agent_status_changed s a st it c now m
  | TaskProgress s t st p => emit_task_progress s t st p now m
  | MessageSent s f t ty sub => emit_message_sent s f t ty sub now m
  | PrEvent s ev n title => emit_pr_event s ev n title now m
  | CostUpdated s total costs => emit_cost_updated s total costs now m
  | LogEntry s a l msg d stamp => emit_log_entry s a l msg d stamp now m
  | SessionComplete s st sum => emit_session_complete s st sum now m
  end.

Definition emission_session (e : emission) : string :=
  match e with
  | AgentStatusChanged s _ _ _ _ | TaskProgress s _ _ _ | MessageSent s _ _ _ _
  | PrEvent s _ _ _ | CostUpdated s _ _ | LogEntry s _ _ _ _ _
  | SessionComplete s _ _ => s
  end.

End Emit.

End Emit.

(* ===================================================================== *)
(** ** The tables and the remaining routes of tasks.py, agents.py, main.py *)
(* ===================================================================== *)

Module Store.
Import Tasks.

(** What a route can raise besides a validation error. *)
Inductive failure : Type :=
  | NotFound (detail : string)   (* HTTPException(status_code=404, detail=...) *)
  | IntegrityError.              (* commit of a row whose primary key is taken *)

(* --------------------------------------------------------------------- *)
(** *** routes/tasks.py                                                   *)
(* --------------------------------------------------------------------- *)

(** A row of the [sessions] table.  Through these routes [total_cost] and
    [status] are never null; a float is kept as the rational it denotes. *)
Record Session : Type := mkSession {
  s_id : string;
  s_started_at : option Z;
  s_prompt : string;
  s_total_cost : Q;
  s_status : string
}.

(** [TaskCreate] (models/schemas.py) *)
Record TaskCreate : Type := mkTaskCreate {
  tc_type : string;
  tc_priority : Z;
  tc_payload : option json;
  tc_id : string;
  tc_session_id : string;
  tc_agent_id : option string
}.

(** [get_task(task_id)]; the table is keyed by the primary key [id]. *)
Definition get_task (tasks : gmap string Task) (task_id : string) : failure + Task :=
  match tasks !! task_id with
  | None => inl (NotFound "Task not found")
  | Some task => inr task
  end.

(** [create_task(task_data)]: the committed table and the new row. *)
Definition create_task (sessions : gmap string Session) (tasks : gmap string Task)
    (task_data : TaskCreate) (now : Z) : failure + (gmap string Task * Task) :=
  match sessions !! tc_session_id task_data with
  | None => inl (NotFound "Session not found")
  | Some _ =>
      let task :=
        {| id := tc_id task_data; session_id := tc_session_id task_data;
           agent_id := tc_agent_id task_data; type := tc_type task_data;
           status := Some "pending"; priority := tc_priority task_data;
           payload := tc_payload task_data; result := None;
           created_at := now; started_at := None; completed_at := None |} in
      match tasks !! tc_id task_data with
      | Some _ => inl IntegrityError
      | None => inr (<[tc_id task_data := task]> tasks, task)
      end
  end.

(** [delete_task(task_id)]: the committed table. *)
Definition delete_task (tasks : gmap string Task) (task_id : string)
    : failure + gmap string Task :=
  match tasks !! task_id with
  | None => inl (NotFound "Task not found")
  | Some _ => inr (delete task_id tasks)
  end.

(** [if session_id:] on an optional string parameter. *)
Definition given (p : option string) : bool :=
  match p with
  | Some s => negb (String.eqb s "")
  | None => false
  end.

(** The rows selected by
    [select(Task)] with [.where(Task.session_id == session_id)] when
    [session_id] is given, in table order. *)
Definition task_rows (tasks : gmap string Task) (session_id : option string)
    : list Task :=
  filter (λ t, given session_id = true → Some (Tasks.session_id t) = session_id)
         (map_to_list tasks).*2.

(** What the store may answer to that query with
    [order_by(Task.priority.desc(), Task.created_at)]: the selected rows in
    some order that respects the two keys (ties are the store's choice). *)
Definition task_query (tasks : gmap string Task) (session_id : option string)
    (rows : list Task) : Prop :=
  rows ≡ₚ task_rows tasks session_id ∧ StronglySorted fetch_order rows.

(** [timedelta.total_seconds()]; the clock counts microseconds. *)
Definition total_seconds (d : Z) : Q := inject_Z d / inject_Z 1000000.

(** [sum(xs)]: from 0, left to right. *)
Definition py_sum (xs : list Q) : Q := foldl Qplus 0%Q xs.

(** [(t.completed_at - t.started_at).total_seconds()] where both are set. *)
Definition seconds_taken (t : Task) : option Q :=
  match started_at t, completed_at t with
  | Some s, Some c => Some (total_seconds (c - s))
  | _, _ => None
  end.

(** The dictionary returned by [get_task_stats]. *)
Record TaskStats : Type := mkStats {
  total : nat;
  n_pending : nat;
  n_in_progress : nat;
  n_completed : nat;
  n_failed : nat;
  avg_completion_time_seconds : Q
}.

(** [sum(1 for t in all_tasks if t.status == name)] *)
Definition count_status (name : string) (all_tasks : list Task) : nat :=
  length (filter (λ t, status t = Some name) all_tasks).

(** [get_task_stats], given the rows its (unordered) query returned. *)
Definition get_task_stats (all_tasks : list Task) : TaskStats :=
  let completed_tasks :=
    filter (λ t, status t = Some "completed"
                 ∧ is_Some (started_at t) ∧ is_Some (completed_at t)) all_tasks in
  {| total := length all_tasks;
     n_pending := count_status "pending" all_tasks;
     n_in_progress := count_status "in_progress" all_tasks;
     n_completed := count_status "completed" all_tasks;
     n_failed := count_status "failed" all_tasks;
     avg_completion_time_seconds :=
       match completed_tasks with
       | [] => 0
       | _ :: _ =>
           py_sum (omap seconds_taken completed_tasks)
           / inject_Z (Z.of_nat (length completed_tasks))
       end |}.

(* --------------------------------------------------------------------- *)
(** *** main.py : the other metrics of get_dashboard_state                *)
(* --------------------------------------------------------------------- *)

(** The "Calculate average iteration time" lines. *)
Definition avg_time (all_tasks : list Task) : Q :=
  let completed_tasks := filter (λ t, status t = Some "completed") all_tasks in
  match completed_tasks with
  | [] => 0
  | _ :: _ =>
      let times := omap seconds_taken completed_tasks in
      match times with
      | [] => 0
      | _ :: _ => py_sum times / inject_Z (Z.of_nat (length times))
      end
  end.

(** A row of the [pull_requests] table. *)
Record PullRequest : Type := mkPr {
  pr_id : string;
  pr_session_id : string;
  pr_agent_id : option string;
  pr_number : option Z;
  pr_title : option string;
  pr_status : option string;
  pr_branch : option string;
  pr_created_at : Z;
  pr_merged_at : option Z
}.

(** [total_prs], [merged_prs], [failed_prs] *)
Definition total_prs (prs : list PullRequest) : nat := length prs.

Definition merged_prs (prs : list PullRequest) : nat :=
  length (filter (λ pr, pr_status pr = Some "merged") prs).

Definition failed_prs (prs : list PullRequest) : nat :=
  length (filter (λ pr, pr_status pr = Some "closed" ∧ pr_merged_at pr = None) prs).

(* --------------------------------------------------------------------- *)
(** *** main.py : sessions                                                *)
(* --------------------------------------------------------------------- *)







(* --------------------------------------------------------------------- *)
(** *** routes/agents.py                                                  *)
(* --------------------------------------------------------------------- *)

(** A row of the [agents] table. *)
Record Agent : Type := mkAgent {
  a_id : string;
  a_session_id : string;
  a_persona : string;
  a_status : option string;
  a_current_task : option string;
  a_iteration : option Z;
  a_cost : option Q;
  a_worktree : option string;
  a_last_activity : option Z;
  a_created_at : Z
}.

(** [AgentCreate] and the dump of [AgentUpdate] (models/schemas.py) *)
Record AgentCreate : Type := mkAgentCreate {
  ac_persona : string;
  ac_status : string;
  ac_id : string;
  ac_session_id : string;
  ac_worktree : option string
}.


(** [get_agent(agent_id)] *)
Definition get_agent (agents : gmap string Agent) (agent_id : string)
    : failure + Agent :=
  match agents !! agent_id with
  | None => inl (NotFound "Agent not found")
  | Some agent => inr agent
  end.

(** [create_agent(agent_data)]; [iteration] and [cost] take their column
    defaults. *)
Definition create_agent (sessions : gmap string Session) (agents : gmap string Agent)
    (agent_data : AgentCreate) (now : Z) : failure + (gmap string Agent * Agent) :=
  match sessions !! ac_session_id agent_data with
  | None => inl (NotFound "Session not found")
  | Some _ =>
      let agent :=
        {| a_id := ac_id agent_data; a_session_id := ac_session_id agent_data;
           a_persona := ac_persona agent_data;
           a_status := Some (ac_status agent_data); a_current_task := None;
           a_iteration := Some 0%Z; a_cost := Some 0%Q;
           a_worktree := ac_worktree agent_data; a_last_activity := None;
           a_created_at := now |} in
      match agents !! ac_id agent_data with
      | Some _ => inl IntegrityError
      | None => inr (<[ac_id agent_data := agent]> agents, agent)
      end
  end.



(** [delete_agent(agent_id)] *)
Definition delete_agent (agents : gmap string Agent) (agent_id : string)
    : failure + gmap string Agent :=
  match agents !! agent_id with
  | None => inl (NotFound "Agent not found")
  | Some _ => inr (delete agent_id agents)
  end.

End Store.

(* ===================================================================== *)
(** ** More sample data                                                   *)
(* ===================================================================== *)

Module MoreSamples.
Import Ws Tasks Store Samples.

Definition one_session : gmap string Session :=
  {[ "S1" := mkSession "S1" (Some 0%Z) "build it" 0 "running" ]}.

Definition new_task : TaskCreate :=
  {| tc_type := "feature"; tc_priority := 5; tc_payload := None;
     tc_id := "task9"; tc_session_id := "S1"; tc_agent_id := None |}.

Definition fresh_task := sample_task "task5" 5 (Some "pending") 20 None None.

Definition sample_agent : Agent :=
  mkAgent "a1" "S1" "coder" (Some "idle") None (Some 0%Z) (Some 0%Q) None None 5.


Definition sample_prs : list PullRequest :=
  [ mkPr "p1" "S1" None (Some 1%Z) None (Some "merged") None 1 (Some 9%Z);
    mkPr "p2" "S1" None (Some 2%Z) None (Some "closed") None 2 None;
    mkPr "p3" "S1" None (Some 3%Z) None (Some "open") None 3 None ].

End MoreSamples.

(** Closes a decidable statement about concrete data by evaluation. *)
Ltac by_computation := apply (bool_decide_unpack _); vm_compute; exact I.

(* ===================================================================== *)
(** ** Facts about the connection registry and the broadcaster            *)
(* ===================================================================== *)

Module WsFacts.
Import Ws Samples.

(** *** Lists: occurrences and [list.remove] *)

Lemma occurrences_nil c : occurrences c [] = 0.
Proof. reflexivity. Qed.

Lemma occurrences_cons c x l :
  occurrences c (x :: l) =
  if decide (x = c) then S (occurrences c l) else occurrences c l.
Proof.
  unfold occurrences. rewrite filter_cons.
  destruct (decide (x = c)); reflexivity.
Qed.

Lemma occurrences_app c l1 l2 :
  occurrences c (l1 ++ l2) = occurrences c l1 + occurrences c l2.
Proof. unfold occurrences. by rewrite filter_app, length_app. Qed.

Lemma occurrences_zero c l : occurrences c l = 0 ↔ c ∉ l.
Proof.
  induction l as [|x l IH]; [by split; [set_solver|] |].
  rewrite occurrences_cons, not_elem_of_cons.
  destruct (decide (x = c)) as [->|Hne]; [split; [lia | tauto] |].
  rewrite IH. split; [intros; split; congruence | tauto].
Qed.

Lemma occurrences_pos c l : 0 < occurrences c l ↔ c ∈ l.
Proof.
  destruct (decide (c ∈ l)) as [Hin|Hnin].
  - split; [done|]. intros _.
    destruct (occurrences c l) eqn:E; [|lia].
    by apply occurrences_zero in E.
  - apply occurrences_zero in Hnin as E. rewrite E. split; [lia | done].
Qed.

Lemma list_remove_notin x l : x ∉ l → list_remove x l = l.
Proof.
  induction l as [|y l IH]; [done|]. intros [Hne Hnin]%not_elem_of_cons.
  simpl. destruct (decide (x = y)); [done|]. by rewrite IH.
Qed.

Lemma list_remove_occurrences_eq c l :
  occurrences c (list_remove c l) = pred (occurrences c l).
Proof.
  induction l as [|y l IH]; [done|]. simpl.
  rewrite occurrences_cons.
  destruct (decide (c = y)) as [->|Hne].
  - by rewrite decide_True.
  - rewrite decide_False by done. rewrite occurrences_cons, decide_False by done.
    exact IH.
Qed.

Lemma list_remove_occurrences_ne c x l :
  x ≠ c → occurrences c (list_remove x l) = occurrences c l.
Proof.
  intros Hne. induction l as [|y l IH]; [done|]. simpl.
  destruct (decide (x = y)) as [->|Hxy].
  - by rewrite occurrences_cons, decide_False.
  - rewrite !occurrences_cons. by rewrite IH.
Qed.

Lemma list_remove_elem_of c x l : c ∈ list_remove x l → c ∈ l.
Proof.
  induction l as [|y l IH]; [done|]. simpl.
  destruct (decide (x = y)); rewrite !elem_of_cons; tauto.
Qed.

(** *** [index_append], [connect], [subscribe], [disconnect] *)

Lemma index_append_lookup_eq sid ws (d : gmap skey (list WebSocket)) :
  index_append sid ws d !! sid = Some (default [] (d !! sid) ++ [ws]).
Proof.
  unfold index_append. destruct (d !! sid) as [l|] eqn:E.
  - by rewrite lookup_insert_eq, E.
  - by rewrite !lookup_insert_eq.
Qed.

Lemma index_append_lookup_ne sid sid' ws (d : gmap skey (list WebSocket)) :
  sid ≠ sid' → index_append sid ws d !! sid' = d !! sid'.
Proof.
  intros Hne. unfold index_append. destruct (d !! sid) as [l|] eqn:E.
  - by rewrite lookup_insert_ne.
  - by rewrite !lookup_insert_ne.
Qed.

Lemma subscribe_session_list_eq c sid m :
  session_list (subscribe c sid m) sid = session_list m sid ++ [c].
Proof. unfold session_list, subscribe. simpl. by rewrite index_append_lookup_eq. Qed.

Lemma subscribe_session_list_ne c sid sid' m :
  sid ≠ sid' → session_list (subscribe c sid m) sid' = session_list m sid'.
Proof.
  intros Hne. unfold session_list, subscribe. simpl.
  by rewrite index_append_lookup_ne.
Qed.

Lemma disconnect_active c sid m :
  active_connections (disconnect c sid m) = list_remove c (active_connections m).
Proof.
  unfold disconnect. simpl. case_bool_decide as Hin; [done|].
  by rewrite list_remove_notin.
Qed.

Lemma disconnect_falsy c sid m :
  truthy sid = false →
  session_connections (disconnect c sid m) = session_connections m.
Proof. intros Hf. unfold disconnect. simpl. by rewrite Hf. Qed.

Lemma disconnect_session_list_eq c sid m :
  truthy sid = true →
  session_list (disconnect c sid m) sid = list_remove c (session_list m sid).
Proof.
  intros Ht. unfold session_list, disconnect. simpl. rewrite Ht.
  destruct (session_connections m !! sid) as [l|] eqn:E; simpl; [|by rewrite E].
  assert ((if bool_decide (c ∈ l) then list_remove c l else l) = list_remove c l)
    as ->.
  { case_bool_decide; [done|]. by rewrite list_remove_notin. }
  destruct (list_remove c l) as [|y l'].
  - by rewrite lookup_delete_eq.
  - by rewrite lookup_insert_eq.
Qed.

Lemma disconnect_session_list_ne c sid sid' m :
  sid ≠ sid' →
  session_list (disconnect c sid m) sid' = session_list m sid'.
Proof.
  intros Hne. unfold session_list, disconnect. simpl.
  destruct (truthy sid); [|done].
  destruct (session_connections m !! sid) as [l|] eqn:E; [|done].
  destruct (if bool_decide (c ∈ l) then list_remove c l else l).
  - by rewrite lookup_delete_ne.
  - by rewrite lookup_insert_ne.
Qed.

(** *** The delivery and clean-up passes *)

Lemma deliver_trace ok message conns :
  (deliver ok message conns).1 = map (send_action ok message) conns.
Proof.
  induction conns as [|c conns IH]; [done|]. simpl.
  destruct (deliver ok message conns) as [tr disc]. simpl in IH.
  unfold send_action at 1. destruct (ok c); simpl; by rewrite IH.
Qed.

Lemma deliver_disconnected ok message conns :
  (deliver ok message conns).2 = filter (λ c, ok c = false) conns.
Proof.
  induction conns as [|c conns IH]; [done|]. simpl.
  destruct (deliver ok message conns) as [tr disc]. simpl in IH.
  rewrite filter_cons. destruct (decide (ok c = false)) as [Hd|Hd].
  - rewrite Hd. simpl. by rewrite IH.
  - destruct (ok c); [exact IH | done].
Qed.

Lemma cleanup_trace sid disc m :
  (cleanup sid disc m).2 = map (λ c, Removed c sid) disc.
Proof.
  revert m. induction disc as [|c disc IH]; intros m; [done|]. simpl.
  specialize (IH (disconnect c sid m)).
  destruct (cleanup sid disc (disconnect c sid m)) as [m' tr]. simpl in *.
  by rewrite IH.
Qed.

Lemma cleanup_state sid disc m :
  (cleanup sid disc m).1 = foldl (λ m c, disconnect c sid m) m disc.
Proof.
  revert m. induction disc as [|c disc IH]; intros m; [done|]. simpl.
  specialize (IH (disconnect c sid m)).
  by destruct (cleanup sid disc (disconnect c sid m)) as [m' tr].
Qed.

Lemma attempted_sends ok message conns :
  attempted (map (send_action ok message) conns) = conns.
Proof.
  induction conns as [|c conns IH]; [done|]. simpl.
  unfold attempted in *. unfold send_action at 1.
  destruct (ok c); simpl; by rewrite IH.
Qed.

Lemma received_sends ok message conns :
  received (map (send_action ok message) conns) = filter (λ c, ok c = true) conns.
Proof.
  induction conns as [|c conns IH]; [done|]. simpl.
  unfold received in *. unfold send_action at 1. rewrite filter_cons.
  destruct (decide (ok c = true)) as [Hd|Hd].
  - rewrite Hd. simpl. by rewrite IH.
  - destruct (ok c); [done | exact IH].
Qed.

Lemma attempted_removes sid disc :
  attempted (map (λ c, Removed c sid) disc) = [].
Proof. by induction disc. Qed.

Lemma received_removes sid disc :
  received (map (λ c, Removed c sid) disc) = [].
Proof. by induction disc. Qed.

Lemma attempted_app tr1 tr2 : attempted (tr1 ++ tr2) = attempted tr1 ++ attempted tr2.
Proof. apply omap_app. Qed.

Lemma received_app tr1 tr2 : received (tr1 ++ tr2) = received tr1 ++ received tr2.
Proof. apply omap_app. Qed.


Lemma broadcast_to_session_trace ok sid event data now m :
  (broadcast_to_session ok sid event data now m).2 =
    map (send_action ok (Envelope event data (Some sid) now)) (session_list m sid)
    ++ map (λ c, Removed c sid)
           (filter (λ c, ok c = false) (session_list m sid)).
Proof.
  unfold broadcast_to_session, session_list.
  destruct (session_connections m !! sid) as [conns|]; [|done]. simpl.
  pose proof (deliver_trace ok (Envelope event data (Some sid) now) conns) as Ht.
  pose proof (deliver_disconnected ok (Envelope event data (Some sid) now) conns) as Hd.
  destruct (deliver ok _ conns) as [tr disc]. simpl in *.
  pose proof (cleanup_trace sid disc m) as Hc.
  destruct (cleanup sid disc m) as [m' tr']. simpl in *.
  by rewrite Ht, Hc, Hd.
Qed.

(** *** What the subscription view means in terms of the operations *)

Lemma handle_text_subscribe ws fields v sid m :
  action_is fields "subscribe" = true →
  dict_get fields "session_id" = Some v →
  hashable v = Some sid →
  handle_text ws (Loaded (JObj fields)) m = (subscribe ws sid m, [Subscribed v], None).
Proof. intros Ha Hs Hh. unfold handle_text. by rewrite Ha, Hs, Hh. Qed.

Lemma subscribed_after_subscribe c sid m : subscribed (subscribe c sid m) c sid.
Proof.
  unfold subscribed. rewrite subscribe_session_list_eq.
  apply elem_of_app. right. apply list_elem_of_singleton. done.
Qed.

Lemma subscribed_subscribe_other c c' sid sid' m :
  sid ≠ sid' → subscribed (subscribe c sid m) c' sid' ↔ subscribed m c' sid'.
Proof. intros Hne. unfold subscribed. by rewrite subscribe_session_list_ne. Qed.

Lemma subscribed_connect_global c c' sid m :
  subscribed (connect c KNone m) c' sid ↔ subscribed m c' sid.
Proof. done. Qed.

Lemma subscribed_after_connect c sid m :
  truthy sid = true → subscribed (connect c sid m) c sid.
Proof.
  intros Ht. unfold subscribed, session_list, connect. rewrite Ht. simpl.
  rewrite index_append_lookup_eq. simpl.
  apply elem_of_app. right. by apply list_elem_of_singleton.
Qed.

(** As long as nothing is removed, the connections subscribed to a session
    are those that asked for it: by a subscribe message, or by attaching
    to the endpoint of that session. *)
Lemma subscribed_step o c sid m :
  removes o = false →
  subscribed (step o m) c sid ↔ subscribed m c sid ∨ subscribes_to c sid o = true.
Proof.
  destruct o as [ws k|ws k| | |]; try done; intros _; simpl.
  - unfold subscribed, session_list, connect.
    destruct (truthy k) eqn:Ht; simpl.
    + destruct (decide (k = sid)) as [->|Hne].
      * rewrite index_append_lookup_eq. simpl.
        rewrite elem_of_app, list_elem_of_singleton, andb_true_r.
        rewrite bool_decide_eq_true. intuition congruence.
      * rewrite index_append_lookup_ne by done.
        rewrite andb_true_r, bool_decide_eq_true. intuition congruence.
    + rewrite andb_false_r. intuition congruence.
  - unfold subscribed. destruct (decide (k = sid)) as [->|Hne].
    + rewrite subscribe_session_list_eq, elem_of_app, list_elem_of_singleton.
      rewrite bool_decide_eq_true. intuition congruence.
    + rewrite subscribe_session_list_ne by done.
      rewrite bool_decide_eq_true. intuition congruence.
Qed.

Lemma subscribed_history ops : ∀ m c sid,
  Forall (λ o, removes o = false) ops →
  subscribed (run ops m) c sid
  ↔ subscribed m c sid ∨ Exists (λ o, subscribes_to c sid o = true) ops.
Proof.
  induction ops as [|o ops IH]; intros m c sid Hall.
  - simpl. rewrite Exists_nil. tauto.
  - apply Forall_cons in Hall as [Ho Hall]. unfold run in *. simpl.
    rewrite (IH _ _ _ Hall), (subscribed_step _ _ _ _ Ho), Exists_cons. tauto.
Qed.

(** The entry that [disconnect] left behind goes at the next publish to
    that session, when the send to the dead connection raises. *)
Lemma stale_entry_pruned_by_publish :
  session_list gone_after_subscribe S1 = [1]
  ∧ (broadcast_to_session (λ _, false) S1 "log.entry" JNull 0
       gone_after_subscribe).1 = init.
Proof. split; vm_compute; reflexivity. Qed.

(** *** The session index has no empty list *)

Lemma index_append_no_empty sid ws (d : gmap skey (list WebSocket)) :
  map_Forall (λ _ l, l ≠ []) d →
  map_Forall (λ _ l, l ≠ []) (index_append sid ws d).
Proof.
  intros Hd k l Hl. destruct (decide (sid = k)) as [->|Hne].
  - rewrite index_append_lookup_eq in Hl. injection Hl as <-.
    by destruct (default [] (d !! k)).
  - rewrite index_append_lookup_ne in Hl by done. by eapply Hd.
Qed.

Lemma connect_no_empty ws sid m :
  no_empty_session m → no_empty_session (connect ws sid m).
Proof.
  unfold no_empty_session, connect. intros Hm.
  destruct (truthy sid); simpl; [by apply index_append_no_empty | done].
Qed.

Lemma subscribe_no_empty ws sid m :
  no_empty_session m → no_empty_session (subscribe ws sid m).
Proof. unfold no_empty_session, subscribe. simpl. apply index_append_no_empty. Qed.

Lemma disconnect_no_empty ws sid m :
  no_empty_session m → no_empty_session (disconnect ws sid m).
Proof.
  unfold no_empty_session, disconnect. simpl. intros Hm.
  destruct (truthy sid); [|done].
  destruct (session_connections m !! sid) as [l|] eqn:E; [|done].
  destruct (if bool_decide (ws ∈ l) then list_remove ws l else l) as [|y l'].
  - by apply map_Forall_delete.
  - by apply map_Forall_insert_2.
Qed.

Lemma cleanup_no_empty sid disc m :
  no_empty_session m → no_empty_session (cleanup sid disc m).1.
Proof.
  rewrite cleanup_state. revert m.
  induction disc as [|c disc IH]; intros m Hm; [done|].
  simpl. apply IH. by apply disconnect_no_empty.
Qed.

Lemma broadcast_no_empty ok event data now m :
  no_empty_session m → no_empty_session (broadcast ok event data now m).1.
Proof.
  intros Hm. unfold broadcast.
  destruct (deliver ok _ (active_connections m)) as [tr disc].
  pose proof (cleanup_no_empty KNone disc m Hm) as Hc.
  by destruct (cleanup KNone disc m) as [m' tr'].
Qed.

Lemma broadcast_to_session_no_empty ok sid event data now m :
  no_empty_session m →
  no_empty_session (broadcast_to_session ok sid event data now m).1.
Proof.
  intros Hm. unfold broadcast_to_session.
  destruct (session_connections m !! sid) as [conns|]; [|done].
  destruct (deliver ok _ conns) as [tr disc].
  pose proof (cleanup_no_empty sid disc m Hm) as Hc.
  by destruct (cleanup sid disc m) as [m' tr'].
Qed.

Lemma init_no_empty : no_empty_session init.
Proof. unfold no_empty_session, init. simpl. apply map_Forall_empty. Qed.

(** C10. Every operation on the registry (connect, subscribe, disconnect,
    and the two publishes with their clean-up) keeps the session index free
    of empty lists: a key of [session_connections] always holds at least
    one connection. *)
Theorem session_index_never_empty (o : op) (m : ConnectionManager) :
  no_empty_session m → no_empty_session (step o m).
Proof.
  intros Hm. destruct o; simpl.
  - by apply connect_no_empty.
  - by apply subscribe_no_empty.
  - by apply disconnect_no_empty.
  - by apply broadcast_no_empty.
  - by apply broadcast_to_session_no_empty.
Qed.

Lemma session_index_never_empty_witness :
  no_empty_session subscribed_once ∧
  no_empty_session (step (OpDisconnect 1 S1) subscribed_once) ∧
  session_connections (step (OpDisconnect 1 S1) subscribed_once) !! S1 = None.
Proof.
  assert (no_empty_session subscribed_once) as H.
  { unfold no_empty_session. apply (bool_decide_unpack _). vm_compute. exact I. }
  split; [exact H|]. split.
  - apply (session_index_never_empty (OpDisconnect 1 S1) subscribed_once H).
  - vm_compute. reflexivity.
Defined.

(** The invariant holds in every state reachable from the empty registry. *)
Lemma reachable_no_empty (ops : list op) : no_empty_session (run ops init).
Proof.
  unfold run. generalize init_no_empty. generalize init.
  induction ops as [|o ops IH]; intros m Hm; [done|].
  simpl. apply IH. destruct o; simpl;
    eauto using connect_no_empty, subscribe_no_empty, disconnect_no_empty,
                broadcast_no_empty, broadcast_to_session_no_empty.
Qed.

(** *** Targets after [disconnect] *)




(** *** Who gets a session-scoped event *)

(** C2. A session-scoped publish calls [send_text] on exactly the
    connections subscribed to that session, and the event is received by
    exactly those of them whose transport accepts it; a connection
    subscribed only elsewhere, or to nothing, gets no call.  Every message
    sent carries the session id. *)
Theorem session_event_recipients (send_ok : WebSocket → bool) (sid : skey)
    (event : string) (data : json) (now : Z) (m : ConnectionManager)
    (c : WebSocket) :
  let tr := (broadcast_to_session send_ok sid event data now m).2 in
  (c ∈ attempted tr ↔ subscribed m c sid)
  ∧ (c ∈ received tr ↔ subscribed m c sid ∧ send_ok c = true)
  ∧ (∀ message, Sent c message ∈ tr →
       message = Envelope event data (Some sid) now).
Proof.
  intros tr. subst tr. rewrite broadcast_to_session_trace.
  rewrite attempted_app, received_app, attempted_sends, received_sends,
    attempted_removes, received_removes, !app_nil_r.
  unfold subscribed. split; [done|]. split.
  - by rewrite list_elem_of_filter, (comm and).
  - intros message [Hin|Hin]%elem_of_app.
    + apply list_elem_of_fmap in Hin as (c' & Heq & _).
      unfold send_action in Heq. destruct (send_ok c'); congruence.
    + apply list_elem_of_fmap in Hin as (c' & Heq & _). discriminate.
Qed.

Lemma session_event_recipients_witness :
  subscribed three_observers A S1
  ∧ A ∈ received (broadcast_to_session all_up S1 "task.progress_updated" JNull 0
                    three_observers).2
  ∧ (B ∉ attempted (broadcast_to_session all_up S1 "task.progress_updated" JNull 0
                      three_observers).2).
Proof.
  assert (session_list three_observers S1 = [A]) as Hl by (vm_compute; reflexivity).
  assert (subscribed three_observers A S1) as Hs.
  { unfold subscribed. rewrite Hl. by apply list_elem_of_singleton. }
  split; [exact Hs|]. split.
  - destruct (session_event_recipients all_up S1 "task.progress_updated" JNull 0
                three_observers A) as (_ & Hr & _).
    apply Hr. split; [exact Hs | reflexivity].
  - destruct (session_event_recipients all_up S1 "task.progress_updated" JNull 0
                three_observers B) as (Ha & _ & _).
    assert (¬ subscribed three_observers B S1) as Hn.
    { unfold subscribed. rewrite Hl. intros Hin%list_elem_of_singleton.
      discriminate Hin. }
    intros Hin. apply Hn, Ha, Hin.
Defined.

(** The scenario of the design document: A subscribed to S1, B to nothing,
    C to S2; an S1 event reaches only A, a session-less one all three. *)
Lemma scenario_session_event_reaches_only_A :
  received (broadcast_to_session all_up S1 "task.progress_updated" JNull 0
              three_observers).2 = [A].
Proof. vm_compute. reflexivity. Qed.

Lemma scenario_global_event_reaches_all :
  received (broadcast all_up "cost.updated" JNull 0 three_observers).2 = [A; B; C].
Proof. vm_compute. reflexivity. Qed.

(** *** Failures during a publish *)






(** With B's transport down, a session-less publish still calls A, B and C
    in turn and only then removes B. *)
Lemma scenario_failure_in_the_middle :
  (broadcast only_B_down "cost.updated" JNull 0 three_observers).2 =
  [ Sent A (Envelope "cost.updated" JNull None 0);
    SendFailed B (Envelope "cost.updated" JNull None 0);
    Sent C (Envelope "cost.updated" JNull None 0);
    Removed B KNone ].
Proof. vm_compute. reflexivity. Qed.

(** *** Subscribing twice *)

(** C5, as stated, fails: after two identical subscribe messages the
    registry differs from the one after a single message, and an S1 event
    is sent to the connection twice. *)
Lemma subscribe_twice_delivers_twice :
  subscribed_twice ≠ subscribed_once ∧
  session_list subscribed_twice S1 = [1; 1] ∧
  received (broadcast_to_session all_up S1 "task.progress_updated" JNull 0
              subscribed_twice).2 = [1; 1].
Proof.
  split; [|split]; [|vm_compute; reflexivity..].
  intros H. apply (f_equal (λ m, session_list m S1)) in H.
  vm_compute in H. discriminate H.
Qed.

(** C5, amended. [subscribe] appends the connection to the session's list
    every time.  A second identical subscribe leaves the same connections
    subscribed to every session, but the list holds one more entry, and a
    session-scoped event published afterwards is sent to the connection
    once per entry: twice more than before the two subscribes. *)
Theorem subscribe_appends (c : WebSocket) (sid : skey) (m : ConnectionManager) :
  session_list (subscribe c sid m) sid = session_list m sid ++ [c]
  ∧ (∀ c' sid', subscribed (subscribe c sid (subscribe c sid m)) c' sid'
                ↔ subscribed (subscribe c sid m) c' sid')
  ∧ (∀ send_ok event data now,
       occurrences c
         (attempted (broadcast_to_session send_ok sid event data now
                       (subscribe c sid (subscribe c sid m))).2)
       = 2 + occurrences c (session_list m sid)).
Proof.
  split; [apply subscribe_session_list_eq|]. split.
  - intros c' sid'. unfold subscribed.
    destruct (decide (sid = sid')) as [<-|Hne].
    + rewrite !subscribe_session_list_eq, !elem_of_app. tauto.
    + by rewrite !subscribe_session_list_ne.
  - intros send_ok event data now. rewrite broadcast_to_session_trace.
    rewrite attempted_app, attempted_sends, attempted_removes, app_nil_r.
    rewrite !subscribe_session_list_eq, !occurrences_app.
    unfold occurrences at 2 3. rewrite !filter_cons, !decide_True by done.
    simpl. lia.
Qed.

(** *** Control messages the handler does not understand *)

(** Text that is not JSON, and an object that is neither a subscribe with a
    [session_id] nor a ping, are dropped: no reply, registry untouched, the
    loop goes on. *)
Lemma invalid_json_ignored ws m :
  handle_text ws JSONDecodeError m = (m, [], None).
Proof. reflexivity. Qed.

Lemma unrecognized_object_ignored ws fields m :
  action_is fields "ping" = false →
  action_is fields "subscribe" = false ∨ dict_get fields "session_id" = None →
  handle_text ws (Loaded (JObj fields)) m = (m, [], None).
Proof.
  intros Hp [Hs|Hs]; unfold handle_text.
  - by rewrite Hs, Hp.
  - rewrite Hs, Hp. by destruct (action_is fields "subscribe").
Qed.

Lemma ignored_frames_keep_receiving ws m :
  websocket_loop ws
    [Text JSONDecodeError; Text (Loaded (JObj [("action", JStr "dance")]))] m
  = (m, [], Receiving).
Proof. reflexivity. Qed.

(** C9. The text frame [[]] is valid JSON but not an object:
    [message.get] raises [AttributeError], which no handler in
    [websocket_endpoint] catches.  The coroutine ends there: the subscribe
    that follows is never read, and the connection is left in
    [active_connections]. *)
Theorem non_object_message_ends_handler :
  websocket_endpoint 1 [empty_array_frame; subscribe_S1] init
  = (connect 1 KNone init, [], Raised AttributeError)
  ∧ session_websocket_endpoint 1 S1 [empty_array_frame] init
    = (connect 1 S1 init, [], Raised AttributeError).
Proof. split; reflexivity. Qed.

End WsFacts.

(* ===================================================================== *)
(** ** Facts about the task queue, the snapshot and status updates        *)
(* ===================================================================== *)

Module TasksFacts.
Import Tasks Samples.

Lemma model_validate_status task info :
  model_validate task = Some info → status task = Some (i_status info).
Proof.
  unfold model_validate. destruct (status task) as [s|]; [|done].
  by intros [= <-].
Qed.

Lemma model_validate_order t1 t2 i1 i2 :
  model_validate t1 = Some i1 → model_validate t2 = Some i2 →
  fetch_order t1 t2 ↔ info_order i1 i2.
Proof.
  unfold model_validate, fetch_order, info_order.
  destruct (status t1), (status t2); try done.
  by intros [= <-] [= <-].
Qed.

Lemma queue_app_nil queue : queue_app queue [] = queue.
Proof. destruct queue. unfold queue_app, bucket. simpl. by rewrite !app_nil_r. Qed.

Lemma queue_app_app queue l1 l2 :
  queue_app (queue_app queue l1) l2 = queue_app queue (l1 ++ l2).
Proof.
  unfold queue_app, bucket. simpl. by rewrite !filter_app, !app_assoc.
Qed.

(** One turn of the loop appends the task to the bucket of its status, or
    to none when the status is not one of the four. *)
Lemma queue_step_app queue task info :
  model_validate task = Some info →
  queue_step queue task = Some (queue_app queue [info]).
Proof.
  intros Hv. unfold queue_step. rewrite Hv.
  apply model_validate_status in Hv. unfold status_is. rewrite Hv.
  unfold queue_app, bucket. rewrite !filter_cons, !filter_nil. f_equal.
  destruct (decide (i_status info = "pending")) as [E|E1].
  { rewrite E. simpl. by rewrite !app_nil_r. }
  rewrite bool_decide_eq_false_2 by congruence.
  destruct (decide (i_status info = "in_progress")) as [E|E2].
  { rewrite E. simpl. by rewrite !app_nil_r. }
  rewrite bool_decide_eq_false_2 by congruence.
  destruct (decide (i_status info = "completed")) as [E|E3].
  { rewrite E. simpl. by rewrite !app_nil_r. }
  rewrite bool_decide_eq_false_2 by congruence.
  destruct (decide (i_status info = "failed")) as [E|E4].
  { rewrite E. simpl. by rewrite !app_nil_r. }
  rewrite bool_decide_eq_false_2 by congruence.
  destruct queue. simpl. by rewrite !app_nil_r.
Qed.

Lemma queue_loop_app all_tasks : ∀ queue infos,
  mapM model_validate all_tasks = Some infos →
  queue_loop queue all_tasks = Some (queue_app queue infos).
Proof.
  induction all_tasks as [|task rest IH]; intros queue infos Hm.
  - injection Hm as <-. simpl. by rewrite queue_app_nil.
  - apply mapM_Some in Hm. inversion Hm as [|? info ? infos' Hv Hrest]; subst.
    apply mapM_Some in Hrest. simpl.
    rewrite (queue_step_app _ _ _ Hv), (IH _ _ Hrest), queue_app_app.
    reflexivity.
Qed.

Lemma queue_loop_none all_tasks : ∀ queue,
  mapM model_validate all_tasks = None → queue_loop queue all_tasks = None.
Proof.
  induction all_tasks as [|task rest IH]; intros queue Hm; [done|].
  simpl. unfold queue_step.
  destruct (model_validate task) as [info|] eqn:Hv; [|done].
  apply IH. apply mapM_None. apply mapM_None in Hm.
  apply Exists_cons in Hm as [Hm|Hm]; [congruence | done].
Qed.

(** The loop raises exactly when some fetched row has a null status. *)
Lemma get_task_queue_total all_tasks :
  Forall (λ t, status t ≠ None) all_tasks ↔ is_Some (get_task_queue all_tasks).
Proof.
  unfold get_task_queue. split.
  - intros Hall.
    assert (is_Some (mapM model_validate all_tasks)) as [infos Hm].
    { apply mapM_is_Some. eapply Forall_impl; [exact Hall|]. intros t Ht. simpl in *.
      unfold model_validate. destruct (status t); [by eexists | done]. }
    rewrite (queue_loop_app _ _ _ Hm). by eexists.
  - intros [q Hq].
    destruct (mapM model_validate all_tasks) as [infos|] eqn:Hm.
    + apply mapM_Some in Hm. clear Hq.
      induction Hm as [|t info ts infos' Hv _ IH]; constructor; [|exact IH].
      apply model_validate_status in Hv. congruence.
    + by rewrite queue_loop_none in Hq.
Qed.

(** *** Order inside a bucket *)

Lemma bucket_status name infos :
  Forall (λ i, i_status i = name) (bucket name infos).
Proof.
  apply Forall_forall. intros i Hi. unfold bucket in Hi.
  by apply list_elem_of_filter in Hi as [? _].
Qed.

Lemma bucket_sorted name infos :
  StronglySorted info_order infos → StronglySorted info_order (bucket name infos).
Proof.
  unfold bucket. induction 1 as [|i infos Hs IH Hall]; [constructor|].
  rewrite filter_cons. destruct (decide (i_status i = name)); [|exact IH].
  constructor; [exact IH|].
  apply Forall_forall. intros j [_ Hj]%list_elem_of_filter.
  rewrite Forall_forall in Hall. by apply Hall.
Qed.

Lemma validated_sorted all_tasks infos :
  Forall2 (λ t i, model_validate t = Some i) all_tasks infos →
  StronglySorted fetch_order all_tasks → StronglySorted info_order infos.
Proof.
  induction 1 as [|t i ts infos' Hv Hrest IH]; [constructor|].
  intros Hs. apply StronglySorted_inv in Hs as [Hs Hall].
  constructor; [by apply IH|]. clear IH Hs.
  induction Hrest as [|t' i' ts' infos'' Hv' _ IH]; [constructor|].
  apply Forall_cons in Hall as [Hh Hall].
  constructor; [|by apply IH].
  by apply (model_validate_order t t' i i' Hv Hv').
Qed.

(** When the fetched rows all validate, both loops build [queue_of]. *)
Lemma queue_of_validated all_tasks infos :
  mapM model_validate all_tasks = Some infos →
  get_task_queue all_tasks = Some (queue_of infos)
  ∧ get_dashboard_state true all_tasks
    = inr {| tasks := queue_of infos;
             metrics_success_rate := success_rate all_tasks |}.
Proof.
  intros Hm.
  assert (queue_loop empty_queue all_tasks = Some (queue_of infos)) as Hq.
  { by rewrite (queue_loop_app _ _ _ Hm). }
  split; [exact Hq|]. unfold get_dashboard_state. simpl. by rewrite Hq.
Qed.

(** C8. When the fetched rows all validate, each bucket of the queue built
    by [get_task_queue], and of the snapshot built by
    [get_dashboard_state], is the fetched sequence restricted to the tasks
    of that status: a sub-sequence in the fetched order, hence still
    ordered by priority descending and creation time ascending when the
    fetched sequence is. *)
Theorem buckets_keep_fetched_order (all_tasks : list Task) (infos : list TaskInfo) :
  mapM model_validate all_tasks = Some infos →
  get_task_queue all_tasks = Some (queue_of infos)
  ∧ get_dashboard_state true all_tasks
    = inr {| tasks := queue_of infos;
             metrics_success_rate := success_rate all_tasks |}
  ∧ (∀ name, bucket name infos = filter (λ i, i_status i = name) infos
             ∧ sublist (bucket name infos) infos)
  ∧ (StronglySorted fetch_order all_tasks →
     ∀ name, StronglySorted info_order (bucket name infos)).
Proof.
  intros Hm. destruct (queue_of_validated _ _ Hm) as [Hq Hd].
  split; [exact Hq|]. split; [exact Hd|]. split.
  - intros name. split; [done|]. apply sublist_filter.
  - intros Hs name. apply bucket_sorted.
    apply mapM_Some in Hm. by eapply validated_sorted.
Qed.

Lemma buckets_keep_fetched_order_witness :
  mapM model_validate scenario_tasks
    = Some [ mkTaskInfo "feature" 9 None "task1" "pending" None None 10 None None;
             mkTaskInfo "feature" 5 None "task2" "completed" None None 11
                        (Some 100%Z) (Some 130%Z);
             mkTaskInfo "feature" 5 None "task3" "failed" None None 12 None None ]
  ∧ get_task_queue scenario_tasks
    = Some {| pending := [mkTaskInfo "feature" 9 None "task1" "pending" None None
                                     10 None None];
              in_progress := [];
              completed := [mkTaskInfo "feature" 5 None "task2" "completed" None
                                       None 11 (Some 100%Z) (Some 130%Z)];
              failed := [mkTaskInfo "feature" 5 None "task3" "failed" None None
                                    12 None None] |}.
Proof.
  assert (mapM model_validate scenario_tasks
    = Some [ mkTaskInfo "feature" 9 None "task1" "pending" None None 10 None None;
             mkTaskInfo "feature" 5 None "task2" "completed" None None 11
                        (Some 100%Z) (Some 130%Z);
             mkTaskInfo "feature" 5 None "task3" "failed" None None 12 None None ])
    as Hm by reflexivity.
  split; [exact Hm|].
  destruct (buckets_keep_fetched_order _ _ Hm) as (Hq & _).
  rewrite Hq. reflexivity.
Defined.

(** *** The buckets as a partition *)

Lemma known_buckets_permutation infos :
  Forall (λ i, known_status (i_status i)) infos →
  all_buckets (queue_of infos) ≡ₚ infos.
Proof.
  unfold all_buckets, queue_of, bucket. simpl.
  induction 1 as [|i infos Hk _ IH]; [done|].
  rewrite !filter_cons.
  destruct Hk as [E|[E|[E|E]]]; rewrite E; simpl; rewrite <- IH at 5;
    solve_Permutation.
Qed.

(** C3, as stated, fails: [status] is a free string column and
    [update_task] writes whatever it is given.  A fetched task whose status
    is "cancelled" lands in none of the four buckets. *)
Lemma unknown_status_in_no_bucket :
  is_Some (model_validate task_cancelled)
  ∧ get_task_queue [task_cancelled] = Some empty_queue
  ∧ get_dashboard_state true [task_cancelled]
    = inr {| tasks := empty_queue; metrics_success_rate := 0 |}
  ∧ all_buckets empty_queue = [].
Proof. split; [by eexists|]. split; [|split]; reflexivity. Qed.

(** C3, amended. When every fetched task has one of the four statuses
    pending, in_progress, completed, failed, the snapshot is built and its
    four buckets partition the fetched tasks: together they hold every
    task exactly once, and each bucket holds only tasks of its status. *)
Theorem buckets_partition_known_statuses (all_tasks : list Task) :
  Forall (λ t, ∃ s, status t = Some s ∧ known_status s) all_tasks →
  ∃ queue infos,
    Forall2 (λ t i, model_validate t = Some i) all_tasks infos
    ∧ get_task_queue all_tasks = Some queue
    ∧ get_dashboard_state true all_tasks
      = inr {| tasks := queue; metrics_success_rate := success_rate all_tasks |}
    ∧ all_buckets queue ≡ₚ infos
    ∧ Forall (λ i, i_status i = "pending") (pending queue)
    ∧ Forall (λ i, i_status i = "in_progress") (in_progress queue)
    ∧ Forall (λ i, i_status i = "completed") (completed queue)
    ∧ Forall (λ i, i_status i = "failed") (failed queue).
Proof.
  intros Hall.
  assert (is_Some (mapM model_validate all_tasks)) as [infos Hm].
  { apply mapM_is_Some. eapply Forall_impl; [exact Hall|].
    intros t (s & Hs & _). simpl. unfold model_validate. rewrite Hs. by eexists. }
  destruct (queue_of_validated _ _ Hm) as [Hq Hd].
  apply mapM_Some in Hm.
  exists (queue_of infos), infos.
  split; [exact Hm|]. split; [exact Hq|]. split; [exact Hd|].
  split; [|by repeat split; apply bucket_status].
  apply known_buckets_permutation.
  clear Hq Hd. induction Hm as [|t i ts infos' Hv _ IH]; [constructor|].
  apply Forall_cons in Hall as [(s & Hs & Hk) Hall].
  constructor; [|by apply IH].
  apply model_validate_status in Hv. congruence.
Qed.

Lemma buckets_partition_known_statuses_witness :
  Forall (λ t, ∃ s, status t = Some s ∧ known_status s) scenario_tasks
  ∧ ∃ queue infos,
      Forall2 (λ t i, model_validate t = Some i) scenario_tasks infos
      ∧ get_task_queue scenario_tasks = Some queue
      ∧ get_dashboard_state true scenario_tasks
        = inr {| tasks := queue;
                 metrics_success_rate := success_rate scenario_tasks |}
      ∧ all_buckets queue ≡ₚ infos
      ∧ Forall (λ i, i_status i = "pending") (pending queue)
      ∧ Forall (λ i, i_status i = "in_progress") (in_progress queue)
      ∧ Forall (λ i, i_status i = "completed") (completed queue)
      ∧ Forall (λ i, i_status i = "failed") (failed queue).
Proof.
  assert (Forall (λ t, ∃ s, status t = Some s ∧ known_status s) scenario_tasks)
    as Hall.
  { unfold scenario_tasks, known_status.
    repeat constructor; eexists; (split; [reflexivity|]); tauto. }
  split; [exact Hall|].
  exact (buckets_partition_known_statuses scenario_tasks Hall).
Defined.

(** *** The success rate *)

(** The rows counted by a list comprehension on [status] are the entries
    of the bucket of that status. *)
Lemma count_status_bucket name all_tasks infos :
  Forall2 (λ t i, model_validate t = Some i) all_tasks infos →
  length (filter (λ t, status t = Some name) all_tasks)
  = length (bucket name infos).
Proof.
  unfold bucket. induction 1 as [|t i ts infos' Hv _ IH]; [done|].
  apply model_validate_status in Hv. rewrite !filter_cons.
  destruct (decide (i_status i = name)) as [E|E].
  - rewrite decide_True by congruence. simpl. by rewrite IH.
  - rewrite decide_False by congruence. exact IH.
Qed.

(** C7. When the session exists and the fetched rows validate, the
    snapshot is built and, with [c] and [f] the numbers of completed and of
    failed tasks fetched (which are the sizes of its completed and failed
    buckets), its success rate is 0 when [c + f] is zero and is the
    quotient [c / (c + f)] otherwise. *)
Theorem success_rate_of_snapshot (all_tasks : list Task) :
  Forall (λ t, status t ≠ None) all_tasks →
  ∃ snapshot,
    get_dashboard_state true all_tasks = inr snapshot
    ∧ let c := length (filter (λ t, status t = Some "completed") all_tasks) in
      let f := length (filter (λ t, status t = Some "failed") all_tasks) in
      c = length (completed (tasks snapshot))
      ∧ f = length (failed (tasks snapshot))
      ∧ ((c + f = 0)%nat → metrics_success_rate snapshot = 0%Q)
      ∧ ((c + f ≠ 0)%nat →
         metrics_success_rate snapshot
         = (inject_Z (Z.of_nat c) / inject_Z (Z.of_nat (c + f)))%Q).
Proof.
  intros Hall.
  assert (is_Some (mapM model_validate all_tasks)) as [infos Hm].
  { apply mapM_is_Some. eapply Forall_impl; [exact Hall|]. intros t Ht.
    simpl in *. unfold model_validate. destruct (status t); [by eexists | done]. }
  destruct (queue_of_validated _ _ Hm) as [_ Hd].
  eexists. split; [exact Hd|]. simpl.
  apply mapM_Some in Hm.
  split; [by apply count_status_bucket|].
  split; [by apply count_status_bucket|].
  unfold success_rate. split; intros Hz.
  - by rewrite bool_decide_eq_false_2 by lia.
  - by rewrite bool_decide_eq_true_2 by lia.
Qed.

Lemma success_rate_of_snapshot_witness :
  Forall (λ t, status t ≠ None) scenario_tasks
  ∧ ∃ snapshot,
      get_dashboard_state true scenario_tasks = inr snapshot
      ∧ length (completed (tasks snapshot)) = 1%nat
      ∧ length (failed (tasks snapshot)) = 1%nat
      ∧ metrics_success_rate snapshot = 1 # 2.
Proof.
  assert (Forall (λ t, status t ≠ None) scenario_tasks) as Hall
    by (repeat constructor; discriminate).
  split; [exact Hall|].
  destruct (success_rate_of_snapshot scenario_tasks Hall)
    as (snapshot & Hd & Hc & Hf & _ & Hnz).
  exists snapshot. split; [exact Hd|].
  split; [by rewrite <- Hc|]. split; [by rewrite <- Hf|].
  rewrite Hnz; [reflexivity | simpl; lia].
Defined.

(** No completed and no failed task: the rate is the integer 0. *)
Lemma success_rate_no_terminal_task :
  get_dashboard_state true [task1]
  = inr {| tasks := queue_of [ mkTaskInfo "feature" 9 None "task1" "pending" None
                                          None 10 None None ];
           metrics_success_rate := 0 |}.
Proof. reflexivity. Qed.

(** *** Timestamps under repeated status updates *)

Lemma apply_fields_started_at update_dict task :
  started_at (apply_fields update_dict task) = started_at task.
Proof.
  unfold apply_fields.
  by destruct (u_status update_dict), (u_agent_id update_dict),
    (u_result update_dict).
Qed.

Lemma apply_fields_completed_at update_dict task :
  completed_at (apply_fields update_dict task) = completed_at task.
Proof.
  unfold apply_fields.
  by destruct (u_status update_dict), (u_agent_id update_dict),
    (u_result update_dict).
Qed.

(** A timestamp that is set is kept by any update whatever. *)
Lemma update_row_started_at now update_dict task :
  is_Some (started_at task) →
  started_at (update_row now update_dict task) = started_at task.
Proof.
  intros [s Hs]. unfold update_row. rewrite apply_fields_started_at.
  unfold status_transition. destruct (u_status update_dict) as [new|]; [|done].
  rewrite Hs. rewrite (bool_decide_eq_false_2 (Some s = None)) by done.
  rewrite andb_false_r.
  by destruct ((bool_decide (new = Some "completed")
                || bool_decide (new = Some "failed"))
               && bool_decide (completed_at task = None)).
Qed.

Lemma update_row_completed_at now update_dict task :
  is_Some (completed_at task) →
  completed_at (update_row now update_dict task) = completed_at task.
Proof.
  intros [s Hs]. unfold update_row. rewrite apply_fields_completed_at.
  unfold status_transition. destruct (u_status update_dict) as [new|]; [|done].
  rewrite Hs. rewrite (bool_decide_eq_false_2 (Some s = None)) by done.
  rewrite andb_false_r.
  by destruct (bool_decide (new = Some "in_progress")
               && bool_decide (started_at task = None)).
Qed.

(** C6. [update_task] on an existing task commits the updated row, and:
    writing in_progress to a task whose [started_at] is set leaves
    [started_at] as it was; writing completed or failed to a task whose
    [completed_at] is set leaves [completed_at] as it was. *)
Theorem timestamps_are_set_once (db : gmap string Task) (task_id : string)
    (update_dict : TaskUpdate) (now : Z) (task : Task) :
  db !! task_id = Some task →
  ∃ task',
    update_task db task_id update_dict now = inr (<[task_id := task']> db, task')
    ∧ (u_status update_dict = Some (Some "in_progress") →
       is_Some (started_at task) → started_at task' = started_at task)
    ∧ (u_status update_dict = Some (Some "completed")
       ∨ u_status update_dict = Some (Some "failed") →
       is_Some (completed_at task) → completed_at task' = completed_at task).
Proof.
  intros Hdb. exists (update_row now update_dict task).
  unfold update_task. rewrite Hdb. split; [done|]. split.
  - intros _. apply update_row_started_at.
  - intros _. apply update_row_completed_at.
Qed.

Lemma timestamps_are_set_once_witness :
  sample_db !! "task2" = Some task2
  ∧ ∃ task',
      update_task sample_db "task2" set_completed 999
        = inr (<["task2" := task']> sample_db, task')
      ∧ completed_at task' = Some 130%Z.
Proof.
  assert (sample_db !! "task2" = Some task2) as Hdb by reflexivity.
  split; [exact Hdb|].
  destruct (timestamps_are_set_once sample_db "task2" set_completed 999 task2 Hdb)
    as (task' & Hu & _ & Hc).
  exists task'. split; [exact Hu|].
  rewrite Hc; [reflexivity | by left | by eexists].
Defined.

(** The first transition does set the timestamps. *)
Lemma first_transition_sets_timestamp :
  started_at (update_row 50 set_in_progress task1) = Some 50%Z
  ∧ completed_at (update_row 60 set_completed task1) = Some 60%Z.
Proof. split; reflexivity. Qed.

End TasksFacts.

(* ===================================================================== *)
(** ** Further facts about the registry, the publishes and the endpoints  *)
(* ===================================================================== *)

Module RegistryFacts.
Import Ws Samples Emit WsFacts.

(** *** Lists *)

Lemma list_remove_middle x (p l : list WebSocket) :
  x ∉ p → list_remove x (p ++ x :: l) = p ++ l.
Proof.
  induction p as [|y p IH]; intros Hx; simpl.
  - by rewrite decide_True.
  - apply not_elem_of_cons in Hx as [Hne Hx].
    rewrite decide_False by done. by rewrite IH.
Qed.

Lemma list_remove_sublist x (l : list WebSocket) : sublist (list_remove x l) l.
Proof.
  induction l as [|y l IH]; [done|]. simpl.
  destruct (decide (x = y)); [by apply sublist_cons | by apply sublist_skip].
Qed.

(** Taking out, one by one, the entries of [l] that fail the test leaves
    the entries that pass it, in their order. *)
Lemma remove_failed (ok : WebSocket → bool) (l : list WebSocket) : ∀ p,
  Forall (λ c, ok c = true) p →
  foldl (λ acc c, list_remove c acc) (p ++ l) (filter (λ c, ok c = false) l)
  = p ++ filter (λ c, ok c = true) l.
Proof.
  induction l as [|x l IH]; intros p Hp; [done|].
  rewrite !filter_cons. destruct (ok x) eqn:Hx.
  - rewrite decide_False by done. rewrite decide_True by done.
    rewrite (cons_middle x p l), app_assoc, IH.
    + by rewrite <- app_assoc.
    + apply Forall_app. split; [done|]. by constructor.
  - rewrite decide_True by done. rewrite decide_False by done. simpl.
    rewrite list_remove_middle; [by apply IH|].
    intros Hin. rewrite Forall_forall in Hp. apply Hp in Hin. congruence.
Qed.

Lemma occurrences_after_removals c (disc : list WebSocket) : ∀ l,
  occurrences c (foldl (λ acc x, list_remove x acc) l disc)
  = occurrences c l - occurrences c disc.
Proof.
  induction disc as [|x disc IH]; intros l; simpl.
  - rewrite occurrences_nil. lia.
  - rewrite IH, occurrences_cons. destruct (decide (x = c)) as [->|Hne].
    + rewrite list_remove_occurrences_eq. lia.
    + by rewrite list_remove_occurrences_ne.
Qed.

(** *** The clean-up pass, field by field *)

Lemma cleanup_active sid disc : ∀ m,
  active_connections (cleanup sid disc m).1
  = foldl (λ acc c, list_remove c acc) (active_connections m) disc.
Proof.
  intros m. rewrite cleanup_state. revert m.
  induction disc as [|c disc IH]; intros m; [done|].
  cbn [foldl]. by rewrite IH, disconnect_active.
Qed.

Lemma cleanup_falsy sid disc : ∀ m,
  truthy sid = false →
  session_connections (cleanup sid disc m).1 = session_connections m.
Proof.
  intros m Hf. rewrite cleanup_state. revert m.
  induction disc as [|c disc IH]; intros m; [done|].
  cbn [foldl]. by rewrite IH, disconnect_falsy.
Qed.

Lemma cleanup_session_list_eq sid disc : ∀ m,
  truthy sid = true →
  session_list (cleanup sid disc m).1 sid
  = foldl (λ acc c, list_remove c acc) (session_list m sid) disc.
Proof.
  intros m Ht. rewrite cleanup_state. revert m.
  induction disc as [|c disc IH]; intros m; [done|].
  cbn [foldl]. by rewrite IH, disconnect_session_list_eq.
Qed.

Lemma cleanup_session_list_ne sid sid' disc : ∀ m,
  sid ≠ sid' →
  session_list (cleanup sid disc m).1 sid' = session_list m sid'.
Proof.
  intros m Hne. rewrite cleanup_state. revert m.
  induction disc as [|c disc IH]; intros m; [done|].
  cbn [foldl]. by rewrite IH, disconnect_session_list_ne.
Qed.

(** The registry a publish leaves is the clean-up of the failed targets. *)
Lemma broadcast_state ok event data now m :
  (broadcast ok event data now m).1
  = (cleanup KNone (filter (λ c, ok c = false) (active_connections m)) m).1.
Proof.
  unfold broadcast.
  pose proof (deliver_disconnected ok (Envelope event data None now)
                (active_connections m)) as Hd.
  destruct (deliver ok _ (active_connections m)) as [tr disc]. simpl in Hd.
  subst disc. by destruct (cleanup KNone _ m).
Qed.

Lemma broadcast_to_session_state ok sid event data now m :
  (broadcast_to_session ok sid event data now m).1
  = (cleanup sid (filter (λ c, ok c = false) (session_list m sid)) m).1.
Proof.
  unfold broadcast_to_session, session_list.
  destruct (session_connections m !! sid) as [conns|]; [|done]. simpl.
  pose proof (deliver_disconnected ok (Envelope event data (Some sid) now) conns)
    as Hd.
  destruct (deliver ok _ conns) as [tr disc]. simpl in Hd.
  subst disc. by destruct (cleanup sid _ m).
Qed.

(** *** Disconnecting *)

(** X1. [disconnect] of a connection that is neither registered nor listed
    under the given session changes nothing (and raises nothing), as long
    as the index holds no empty list. *)
Theorem disconnect_unknown_connection (c : WebSocket) (sid : skey)
    (m : ConnectionManager) :
  c ∉ active_connections m → c ∉ session_list m sid → no_empty_session m →
  disconnect c sid m = m.
Proof.
  intros Ha Hs Hinv. destruct m as [active d]. unfold disconnect. simpl in *.
  rewrite bool_decide_eq_false_2 by done. f_equal.
  destruct (truthy sid); [|done].
  unfold session_list in Hs. simpl in Hs.
  destruct (d !! sid) as [l|] eqn:E; [|done]. simpl in Hs.
  rewrite bool_decide_eq_false_2 by done.
  destruct l as [|y l]; [by apply Hinv in E|]. by apply insert_id.
Qed.

Lemma disconnect_unknown_connection_witness :
  (7 ∉ active_connections subscribed_once)
  ∧ (7 ∉ session_list subscribed_once S1)
  ∧ no_empty_session subscribed_once
  ∧ disconnect 7 S1 subscribed_once = subscribed_once.
Proof.
  assert (7 ∉ active_connections subscribed_once) as Ha by by_computation.
  assert (7 ∉ session_list subscribed_once S1) as Hs by by_computation.
  assert (no_empty_session subscribed_once) as Hi
    by (unfold no_empty_session; by_computation).
  split; [exact Ha|]. split; [exact Hs|]. split; [exact Hi|].
  exact (disconnect_unknown_connection 7 S1 subscribed_once Ha Hs Hi).
Defined.

(** [disconnect] undoes the [connect] of a new connection. *)
Lemma disconnect_connect c sid m :
  c ∉ active_connections m → c ∉ session_list m sid → no_empty_session m →
  disconnect c sid (connect c sid m) = m.
Proof.
  intros Ha Hs Hinv. destruct m as [active d].
  unfold session_list in Hs. simpl in Hs.
  assert (list_remove c (active ++ [c]) = active) as Hrm.
  { rewrite list_remove_middle by done. apply app_nil_r. }
  unfold disconnect, connect. simpl. destruct (truthy sid) eqn:Ht; simpl.
  - rewrite bool_decide_eq_true_2
      by (apply elem_of_app; right; by apply list_elem_of_singleton).
    rewrite Hrm. f_equal.
    rewrite index_append_lookup_eq.
    rewrite bool_decide_eq_true_2
      by (apply elem_of_app; right; by apply list_elem_of_singleton).
    rewrite list_remove_middle by done. rewrite app_nil_r.
    unfold index_append.
    destruct (d !! sid) as [l|] eqn:E; simpl in *.
    + destruct l as [|y l]; [by apply Hinv in E|].
      rewrite insert_insert_eq. by apply insert_id.
    + rewrite insert_insert_eq, delete_insert_eq. by apply delete_id.
  - rewrite bool_decide_eq_true_2
      by (apply elem_of_app; right; by apply list_elem_of_singleton).
    by rewrite Hrm.
Qed.

(** *** What a publish leaves behind *)

(** X2. After [broadcast] the global list holds exactly the connections
    whose send returned, in their order; the session index is not touched,
    so a connection dropped here stays listed under its sessions. *)
Theorem broadcast_prunes_failed (send_ok : WebSocket → bool) (event : string)
    (data : json) (now : Z) (m : ConnectionManager) :
  active_connections (broadcast send_ok event data now m).1
  = filter (λ c, send_ok c = true) (active_connections m)
  ∧ session_connections (broadcast send_ok event data now m).1
    = session_connections m.
Proof.
  rewrite broadcast_state. split.
  - rewrite cleanup_active.
    exact (remove_failed send_ok (active_connections m) [] (Forall_nil_2 _)).
  - by apply cleanup_falsy.
Qed.

(** X3. After [broadcast_to_session] for a non-empty session id, the list
    of that session holds exactly the subscribers whose send returned, in
    their order; the lists of the other sessions are unchanged; and each
    failed entry also costs the connection one entry of the global list. *)
Theorem broadcast_to_session_prunes_failed (send_ok : WebSocket → bool)
    (sid : skey) (event : string) (data : json) (now : Z)
    (m : ConnectionManager) :
  truthy sid = true →
  let m' := (broadcast_to_session send_ok sid event data now m).1 in
  session_list m' sid = filter (λ c, send_ok c = true) (session_list m sid)
  ∧ (∀ sid', sid ≠ sid' → session_list m' sid' = session_list m sid')
  ∧ (∀ c, send_ok c = false →
       occurrences c (active_connections m')
       = occurrences c (active_connections m) - occurrences c (session_list m sid)).
Proof.
  intros Ht m'. subst m'. rewrite broadcast_to_session_state.
  split; [|split].
  - rewrite cleanup_session_list_eq by done.
    exact (remove_failed send_ok (session_list m sid) [] (Forall_nil_2 _)).
  - intros sid' Hne. by apply cleanup_session_list_ne.
  - intros c Hc. rewrite cleanup_active, occurrences_after_removals.
    f_equal. unfold occurrences. rewrite list_filter_filter.
    apply (f_equal length), list_filter_iff. intros x. split; [tauto|].
    intros ->. done.
Qed.

Lemma broadcast_to_session_prunes_failed_witness :
  truthy S1 = true
  ∧ session_list (broadcast_to_session only_B_down S1 "log.entry" JNull 0
                    (subscribe B S1 three_observers)).1 S1 = [A]
  ∧ active_connections (broadcast_to_session only_B_down S1 "log.entry" JNull 0
                          (subscribe B S1 three_observers)).1 = [A; C].
Proof.
  assert (truthy S1 = true) as Ht by reflexivity.
  split; [exact Ht|].
  destruct (broadcast_to_session_prunes_failed only_B_down S1 "log.entry" JNull 0
              (subscribe B S1 three_observers) Ht) as (Hl & _ & _).
  split; [rewrite Hl|]; vm_compute; reflexivity.
Defined.

(** X4. A session id that Python takes for false (the empty string, 0,
    null: a subscribe message can register under any of them) is never
    cleaned: whatever fails, [broadcast_to_session] leaves the whole index,
    and so the list it has just iterated, as it was. *)
Theorem falsy_session_is_never_pruned (send_ok : WebSocket → bool)
    (sid : skey) (event : string) (data : json) (now : Z)
    (m : ConnectionManager) :
  truthy sid = false →
  session_connections (broadcast_to_session send_ok sid event data now m).1
  = session_connections m.
Proof.
  intros Hf. rewrite broadcast_to_session_state. by apply cleanup_falsy.
Qed.

Lemma falsy_session_is_never_pruned_witness :
  truthy (KStr "") = false
  ∧ session_list
      (websocket_endpoint 1
         [Text (Loaded (JObj [("action", JStr "subscribe");
                              ("session_id", JStr "")]))] init).1.1
      (KStr "") = [1]
  ∧ session_list
      (broadcast_to_session (λ _, false) (KStr "") "log.entry" JNull 0
         (websocket_endpoint 1
            [Text (Loaded (JObj [("action", JStr "subscribe");
                                 ("session_id", JStr "")]))] init).1.1).1
      (KStr "") = [1].
Proof.
  assert (truthy (KStr "") = false) as Hf by reflexivity.
  split; [exact Hf|]. split; [vm_compute; reflexivity|].
  unfold session_list.
  rewrite (falsy_session_is_never_pruned (λ _, false) (KStr "") "log.entry"
             JNull 0 _ Hf).
  vm_compute. reflexivity.
Defined.

(** X5. A publish in which every send returns leaves the registry exactly
    as it was. *)
Theorem delivered_publish_keeps_registry (send_ok : WebSocket → bool)
    (sid : skey) (event : string) (data : json) (now : Z)
    (m : ConnectionManager) :
  (Forall (λ c, send_ok c = true) (active_connections m) →
   (broadcast send_ok event data now m).1 = m)
  ∧ (Forall (λ c, send_ok c = true) (session_list m sid) →
     (broadcast_to_session send_ok sid event data now m).1 = m).
Proof.
  assert (∀ l, Forall (λ c, send_ok c = true) l →
               filter (λ c, send_ok c = false) l = []) as Hnone.
  { intros l Hl. induction Hl as [|x l Hx _ IH]; [done|].
    rewrite filter_cons, decide_False by congruence. exact IH. }
  split; intros Hall.
  - by rewrite broadcast_state, Hnone.
  - by rewrite broadcast_to_session_state, Hnone.
Qed.

Lemma delivered_publish_keeps_registry_witness :
  Forall (λ c, all_up c = true) (active_connections three_observers)
  ∧ (broadcast all_up "cost.updated" JNull 0 three_observers).1 = three_observers.
Proof.
  assert (Forall (λ c, all_up c = true) (active_connections three_observers))
    as Hall by (apply Forall_forall; reflexivity).
  split; [exact Hall|].
  destruct (delivered_publish_keeps_registry all_up S1 "cost.updated" JNull 0
              three_observers) as [Hb _].
  exact (Hb Hall).
Defined.

(** X6. As long as every connection attaches once, the global list has no
    duplicate: no operation of the registry introduces one. *)
Theorem active_connections_stay_distinct (o : op) (m : ConnectionManager) :
  NoDup (active_connections m) →
  (∀ ws sid, o = OpConnect ws sid → ws ∉ active_connections m) →
  NoDup (active_connections (step o m)).
Proof.
  intros Hnd Hfresh.
  assert (∀ (disc l : list WebSocket), NoDup l →
            NoDup (foldl (λ (acc : list WebSocket) c, list_remove c acc) l disc))
    as Hfold.
  { induction disc as [|c disc IH]; intros l Hl; [done|]. simpl. apply IH.
    eapply sublist_NoDup; [eassumption | apply list_remove_sublist]. }
  destruct o as [ws sid|ws sid|ws sid|ok ev d now|ok sid ev d now]; cbn [step].
  - assert (active_connections (connect ws sid m) = active_connections m ++ [ws])
      as -> by (unfold connect; by destruct (truthy sid)).
    apply NoDup_app. split; [done|]. split; [|apply NoDup_singleton].
    intros x Hx ->%list_elem_of_singleton. by eapply Hfresh.
  - done.
  - rewrite disconnect_active.
    eapply sublist_NoDup; [eassumption | apply list_remove_sublist].
  - rewrite broadcast_state, cleanup_active. by apply Hfold.
  - rewrite broadcast_to_session_state, cleanup_active. by apply Hfold.
Qed.

Lemma active_connections_stay_distinct_witness :
  NoDup (active_connections three_observers)
  ∧ NoDup (active_connections (step (OpConnect 9 S1) three_observers)).
Proof.
  assert (NoDup (active_connections three_observers)) as Hnd by by_computation.
  split; [exact Hnd|].
  apply (active_connections_stay_distinct (OpConnect 9 S1) three_observers Hnd).
  intros ws sid [= <- _]. by_computation.
Defined.

(** *** The endpoints, from attach to close *)

(** The loop of the session endpoint touches the registry only when the
    peer goes away. *)
Lemma session_websocket_loop_registry ws sid frames : ∀ m,
  let r := session_websocket_loop ws sid frames m in
  (r.2 = Disconnected ∧ r.1.1 = disconnect ws sid m)
  ∨ (r.2 ≠ Disconnected ∧ r.1.1 = m).
Proof.
  induction frames as [|f frames IH]; intros m; simpl; [by right|].
  destruct f as [data|]; [|by left].
  destruct (session_handle_text data) as [replies [e|]]; [by right|].
  specialize (IH m).
  by destruct (session_websocket_loop ws sid frames m) as [[m2 replies'] st].
Qed.

(** X7. A connection served by [session_websocket_endpoint] until its peer
    closes leaves the registry exactly as it found it, whatever it sent in
    between. *)
Theorem session_endpoint_leaves_no_trace (ws : WebSocket) (sid : skey)
    (frames : list frame) (m : ConnectionManager) :
  ws ∉ active_connections m → ws ∉ session_list m sid → no_empty_session m →
  (session_websocket_endpoint ws sid frames m).2 = Disconnected →
  (session_websocket_endpoint ws sid frames m).1.1 = m.
Proof.
  intros Ha Hs Hinv Hst. unfold session_websocket_endpoint in *.
  destruct (session_websocket_loop_registry ws sid frames (connect ws sid m))
    as [[_ Hr]|[Hn _]]; [|done].
  rewrite Hr. by apply disconnect_connect.
Qed.

Lemma session_endpoint_leaves_no_trace_witness :
  (C ∉ active_connections subscribed_both)
  ∧ (C ∉ session_list subscribed_both S2)
  ∧ no_empty_session subscribed_both
  ∧ (session_websocket_endpoint C S2
       [Text (Loaded (JObj [("action", JStr "ping")])); subscribe_S1; Close]
       subscribed_both).2 = Disconnected
  ∧ (session_websocket_endpoint C S2
       [Text (Loaded (JObj [("action", JStr "ping")])); subscribe_S1; Close]
       subscribed_both).1.1 = subscribed_both.
Proof.
  assert (C ∉ active_connections subscribed_both) as Ha by by_computation.
  assert (C ∉ session_list subscribed_both S2) as Hs by by_computation.
  assert (no_empty_session subscribed_both) as Hi
    by (unfold no_empty_session; by_computation).
  assert ((session_websocket_endpoint C S2
             [Text (Loaded (JObj [("action", JStr "ping")])); subscribe_S1; Close]
             subscribed_both).2 = Disconnected) as Hst by reflexivity.
  split; [exact Ha|]. split; [exact Hs|]. split; [exact Hi|]. split; [exact Hst|].
  exact (session_endpoint_leaves_no_trace C S2 _ subscribed_both Ha Hs Hi Hst).
Defined.

(** One message either leaves the registry alone or subscribes the
    connection that sent it. *)
Lemma handle_text_registry ws data m :
  (handle_text ws data m).1.1 = m
  ∨ ∃ sid, (handle_text ws data m).1.1 = subscribe ws sid m.
Proof.
  unfold handle_text. destruct data as [|[| | | | |fields]]; try by left.
  destruct (if action_is fields "subscribe" then _ else _) as [v|].
  - destruct (hashable v) as [sid|]; [right; by exists sid | by left].
  - destruct (action_is fields "ping"); by left.
Qed.

Lemma websocket_loop_registry ws frames : ∀ m,
  let r := websocket_loop ws frames m in
  (∀ sid, ∃ k, session_list r.1.1 sid = session_list m sid ++ replicate k ws)
  ∧ (r.2 = Disconnected →
     active_connections r.1.1 = list_remove ws (active_connections m))
  ∧ (r.2 ≠ Disconnected → active_connections r.1.1 = active_connections m).
Proof.
  induction frames as [|f frames IH]; intros m; cbn [websocket_loop].
  - simpl. split; [|done]. intros sid. exists 0. by rewrite app_nil_r.
  - destruct f as [data|].
    + pose proof (handle_text_registry ws data m) as Hh.
      destruct (handle_text ws data m) as [[m1 replies] [e|]]; simpl in Hh.
      * simpl. split.
        -- intros sid. destruct Hh as [->|[k ->]].
           ++ exists 0. by rewrite app_nil_r.
           ++ destruct (decide (k = sid)) as [->|Hne].
              ** exists 1. by rewrite subscribe_session_list_eq.
              ** exists 0. by rewrite subscribe_session_list_ne, app_nil_r.
        -- split; [done|]. intros _. by destruct Hh as [->|[k ->]].
      * specialize (IH m1).
        destruct (websocket_loop ws frames m1) as [[m2 replies'] st].
        simpl in IH |- *. destruct IH as (IHs & IHd & IHn). split.
        -- intros sid. destruct (IHs sid) as [k Hk]. rewrite Hk.
           destruct Hh as [->|[key ->]]; [by exists k|].
           destruct (decide (key = sid)) as [->|Hne].
           ++ exists (S k). rewrite subscribe_session_list_eq.
              by rewrite <- app_assoc.
           ++ exists k. by rewrite subscribe_session_list_ne.
        -- split; intros Hst.
           ++ rewrite (IHd Hst). by destruct Hh as [->|[key ->]].
           ++ rewrite (IHn Hst). by destruct Hh as [->|[key ->]].
    + cbn [fst snd]. split.
      * intros sid. exists 0. rewrite app_nil_r. unfold session_list.
        by rewrite disconnect_falsy.
      * split; [intros _; apply disconnect_active | done].
Qed.

(** X8. Whatever a connection on /ws sends, its handler only ever appends
    that connection to session lists: every list of the index keeps its
    entries, in order, followed by some copies of the connection.  The
    global list gets the connection at the end, and loses one entry of it
    again exactly when the peer closes; the entries appended to the session
    lists then stay. *)
Theorem ws_handler_only_adds_itself (ws : WebSocket) (frames : list frame)
    (m : ConnectionManager) :
  let r := websocket_endpoint ws frames m in
  (∀ sid, ∃ k, session_list r.1.1 sid = session_list m sid ++ replicate k ws)
  ∧ (r.2 = Disconnected →
     active_connections r.1.1 = list_remove ws (active_connections m ++ [ws]))
  ∧ (r.2 ≠ Disconnected →
     active_connections r.1.1 = active_connections m ++ [ws]).
Proof.
  unfold websocket_endpoint.
  exact (websocket_loop_registry ws frames (connect ws KNone m)).
Qed.

Lemma ws_handler_only_adds_itself_witness :
  (websocket_endpoint 1 [subscribe_S1; subscribe_S1; Close] three_observers).2
  = Disconnected
  ∧ active_connections
      (websocket_endpoint 1 [subscribe_S1; subscribe_S1; Close] three_observers).1.1
    = [B; C; A]
  ∧ session_list
      (websocket_endpoint 1 [subscribe_S1; subscribe_S1; Close] three_observers).1.1
      S1 = [A; A; A].
Proof.
  assert ((websocket_endpoint 1 [subscribe_S1; subscribe_S1; Close]
             three_observers).2 = Disconnected) as Hst by reflexivity.
  split; [exact Hst|].
  destruct (ws_handler_only_adds_itself 1 [subscribe_S1; subscribe_S1; Close]
              three_observers) as (_ & Hd & _).
  split; [rewrite (Hd Hst)|]; vm_compute; reflexivity.
Defined.

(** *** The event functions *)

(** X9. Each of the seven [emit_*] functions calls [send_text] on exactly
    the connections listed under its session id, and every message it
    sends carries that id: a connection that is registered but listed under
    no session is sent nothing by any of them. *)
Theorem emitted_events_stay_in_session (send_ok : WebSocket → bool)
    (float : Type) (json_of_float : float → json) (isoformat : Z → string)
    (e : emission float) (now : Z) (m : ConnectionManager) :
  let tr := (emit send_ok float json_of_float isoformat e now m).2 in
  attempted tr = session_list m (KStr (emission_session float e))
  ∧ (∀ c message, Sent c message ∈ tr →
       ∃ event data,
         message = Envelope event data (Some (KStr (emission_session float e))) now).
Proof.
  assert (∀ sid event data,
    let tr := (broadcast_to_session send_ok sid event data now m).2 in
    attempted tr = session_list m sid
    ∧ (∀ c message, Sent c message ∈ tr →
         message = Envelope event data (Some sid) now)) as Hb.
  { intros sid event data tr. subst tr. rewrite broadcast_to_session_trace.
    rewrite attempted_app, attempted_sends, attempted_removes, app_nil_r.
    split; [done|]. intros c message [Hin|Hin]%elem_of_app.
    - apply list_elem_of_fmap in Hin as (c' & Heq & _).
      unfold send_action in Heq. destruct (send_ok c'); congruence.
    - apply list_elem_of_fmap in Hin as (c' & Heq & _). discriminate. }
  destruct e; cbn [emit emission_session];
    unfold emit_agent_status_changed, emit_task_progress, emit_message_sent,
      emit_pr_event, emit_cost_updated, emit_log_entry, emit_session_complete;
    (split; [apply Hb | intros ? msg Hin; do 2 eexists; by eapply Hb]).
Qed.

End RegistryFacts.

(* ===================================================================== *)
(** ** Further facts about the task routes, the metrics and the tables    *)
(* ===================================================================== *)

Module StoreFacts.
Import Tasks Store Samples MoreSamples TasksFacts.

(** *** The metrics *)

Lemma truediv_bounds (a b : nat) :
  (0 < b)%nat → (a ≤ b)%nat → (0 <= truediv a b)%Q ∧ (truediv a b <= 1)%Q.
Proof.
  intros Hb Hab. unfold truediv.
  assert (0 < inject_Z (Z.of_nat b))%Q as Hpos.
  { change 0%Q with (inject_Z 0). rewrite <- Zlt_Qlt. lia. }
  split.
  - apply Qle_shift_div_l; [exact Hpos|]. rewrite Qmult_0_l.
    change 0%Q with (inject_Z 0). rewrite <- Zle_Qle. lia.
  - apply Qle_shift_div_r; [exact Hpos|]. rewrite Qmult_1_l.
    rewrite <- Zle_Qle. lia.
Qed.

(** X10. The success rate of a snapshot always lies between 0 and 1. *)
Theorem success_rate_is_a_ratio (all_tasks : list Task) :
  (0 <= success_rate all_tasks)%Q ∧ (success_rate all_tasks <= 1)%Q.
Proof.
  unfold success_rate. case_bool_decide as Hpos.
  - apply truediv_bounds; lia.
  - split; [apply Qle_refl | discriminate].
Qed.

(** X11. Of the pull requests fetched, none is counted both as merged and
    as failed: the two counts together never exceed the total. *)
Theorem pr_counts_are_disjoint (prs : list PullRequest) :
  (merged_prs prs + failed_prs prs ≤ total_prs prs)%nat.
Proof.
  unfold merged_prs, failed_prs, total_prs.
  induction prs as [|pr prs IH]; [done|].
  rewrite !filter_cons.
  destruct (decide (pr_status pr = Some "merged")) as [E|E].
  - rewrite decide_False by (rewrite E; intros [[=] _]). simpl. lia.
  - destruct (decide (pr_status pr = Some "closed" ∧ pr_merged_at pr = None));
      simpl; lia.
Qed.

(** The dated completed tasks, seen from the two routes. *)
Lemma omap_seconds_cons t ts :
  omap seconds_taken (t :: ts)
  = match seconds_taken t with
    | Some x => x :: omap seconds_taken ts
    | None => omap seconds_taken ts
    end.
Proof. reflexivity. Qed.

Lemma dated_completed_seconds (all_tasks : list Task) :
  omap seconds_taken
    (filter (λ t, status t = Some "completed"
                  ∧ is_Some (started_at t) ∧ is_Some (completed_at t)) all_tasks)
  = omap seconds_taken (filter (λ t, status t = Some "completed") all_tasks)
  ∧ length (filter (λ t, status t = Some "completed"
                         ∧ is_Some (started_at t) ∧ is_Some (completed_at t))
                   all_tasks)
    = length (omap seconds_taken
                (filter (λ t, status t = Some "completed") all_tasks)).
Proof.
  induction all_tasks as [|t ts [IH1 IH2]]; [done|].
  rewrite !filter_cons.
  destruct (decide (status t = Some "completed")) as [E|E].
  - rewrite (omap_seconds_cons t (filter _ ts)).
    destruct (decide (status t = Some "completed"
                      ∧ is_Some (started_at t) ∧ is_Some (completed_at t)))
      as [(_ & [s Hs] & [c Hc])|Hn].
    + assert (seconds_taken t = Some (total_seconds (c - s))) as Hsec
        by (unfold seconds_taken; by rewrite Hs, Hc).
      rewrite omap_seconds_cons, Hsec. simpl. by rewrite IH1, IH2.
    + assert (seconds_taken t = None) as ->; [|done].
      unfold seconds_taken.
      destruct (started_at t) as [s|] eqn:Hs; [|done].
      destruct (completed_at t) as [c|] eqn:Hc; [|done].
      destruct Hn. split; [done|]. split; by eexists.
  - rewrite decide_False by tauto. done.
Qed.

(** X12. On the same rows, the average completion time reported by
    [get_task_stats] is the average iteration time of the dashboard
    snapshot. *)
Theorem stats_average_is_snapshot_average (all_tasks : list Task) :
  avg_completion_time_seconds (get_task_stats all_tasks) = avg_time all_tasks.
Proof.
  unfold get_task_stats, avg_time. cbn [avg_completion_time_seconds].
  destruct (dated_completed_seconds all_tasks) as [Hs Hl].
  set (dated := filter (λ t, status t = Some "completed"
                             ∧ is_Some (started_at t) ∧ is_Some (completed_at t))
                       all_tasks) in *.
  set (done_ := filter (λ t, status t = Some "completed") all_tasks) in *.
  destruct done_ as [|t ts], dated as [|t' ts'].
  - done.
  - discriminate Hl.
  - simpl in Hl. by destruct (omap seconds_taken (t :: ts)).
  - rewrite Hs, Hl.
    by destruct (omap seconds_taken (t :: ts)) as [|x xs]; [discriminate Hl|].
Qed.

(** *** The statistics and the queue *)

(** X13. When the queue can be built from the rows, the four counts of
    [get_task_stats] on the same rows are the sizes of its four buckets. *)
Theorem stats_counts_match_queue (all_tasks : list Task) :
  Forall (λ t, status t ≠ None) all_tasks →
  ∃ queue,
    get_task_queue all_tasks = Some queue
    ∧ n_pending (get_task_stats all_tasks) = length (pending queue)
    ∧ n_in_progress (get_task_stats all_tasks) = length (in_progress queue)
    ∧ n_completed (get_task_stats all_tasks) = length (completed queue)
    ∧ n_failed (get_task_stats all_tasks) = length (failed queue).
Proof.
  intros Hall.
  assert (is_Some (mapM model_validate all_tasks)) as [infos Hm].
  { apply mapM_is_Some. eapply Forall_impl; [exact Hall|]. intros t Ht.
    simpl in *. unfold model_validate. destruct (status t); [by eexists | done]. }
  exists (queue_of infos). split; [by apply queue_of_validated|].
  apply mapM_Some in Hm. unfold get_task_stats, count_status. simpl.
  by rewrite !(count_status_bucket _ _ _ Hm).
Qed.

Lemma stats_counts_match_queue_witness :
  Forall (λ t, status t ≠ None) scenario_tasks
  ∧ ∃ queue,
      get_task_queue scenario_tasks = Some queue
      ∧ length (pending queue) = 1 ∧ length (in_progress queue) = 0
      ∧ length (completed queue) = 1 ∧ length (failed queue) = 1.
Proof.
  assert (Forall (λ t, status t ≠ None) scenario_tasks) as Hall
    by (repeat constructor; discriminate).
  split; [exact Hall|].
  destruct (stats_counts_match_queue scenario_tasks Hall)
    as (queue & Hq & Hp & Hi & Hc & Hf).
  exists queue. split; [exact Hq|].
  rewrite <- Hp, <- Hi, <- Hc, <- Hf. repeat split; reflexivity.
Defined.

(** X14. [total] counts every row, the four named counts only the rows of
    their status: the difference is the number of rows whose status is
    none of the four (null included). *)
Theorem stats_total_decomposes (all_tasks : list Task) :
  total (get_task_stats all_tasks)
  = n_pending (get_task_stats all_tasks)
    + n_in_progress (get_task_stats all_tasks)
    + n_completed (get_task_stats all_tasks)
    + n_failed (get_task_stats all_tasks)
    + length (filter (λ t, status t ≠ Some "pending"
                           ∧ status t ≠ Some "in_progress"
                           ∧ status t ≠ Some "completed"
                           ∧ status t ≠ Some "failed") all_tasks).
Proof.
  unfold get_task_stats, count_status. simpl.
  induction all_tasks as [|t ts IH]; [done|].
  rewrite !filter_cons. simpl length at 1. rewrite IH.
  destruct (status t) as [s|]; repeat case_decide; simpl;
    destruct_and?; simplify_eq; try lia; exfalso; tauto.
Qed.

(** X15. A null status on one fetched row is enough to make both the queue
    route and the dashboard route fail, whatever the other rows are. *)
Theorem null_status_breaks_the_queue (all_tasks : list Task) (t : Task) :
  t ∈ all_tasks → status t = None →
  get_task_queue all_tasks = None
  ∧ get_dashboard_state true all_tasks = inl ValidationError.
Proof.
  intros Hin Hnull.
  assert (queue_loop empty_queue all_tasks = None) as Hq.
  { apply queue_loop_none, mapM_None, Exists_exists. exists t.
    split; [done|]. unfold model_validate. by rewrite Hnull. }
  split; [exact Hq|]. unfold get_dashboard_state. simpl. by rewrite Hq.
Qed.

Lemma null_status_breaks_the_queue_witness :
  set_status None task2 ∈ [task1; set_status None task2; task3]
  ∧ status (set_status None task2) = None
  ∧ status (update_row 7 (mkUpdate (Some None) None None) task2) = None
  ∧ get_task_queue [task1; set_status None task2; task3] = None.
Proof.
  assert (set_status None task2 ∈ [task1; set_status None task2; task3]) as Hin
    by (apply elem_of_cons; right; apply elem_of_cons; by left).
  assert (status (set_status None task2) = None) as Hn by reflexivity.
  split; [exact Hin|]. split; [exact Hn|]. split; [reflexivity|].
  exact (proj1 (null_status_breaks_the_queue _ _ Hin Hn)).
Defined.

(** *** Updating a task *)

Lemma update_row_absorbs now1 now2 update_dict task :
  update_row now2 update_dict (update_row now1 update_dict task)
  = update_row now1 update_dict task.
Proof.
  destruct task as [i sid ag ty st pr pl res cr sta com].
  destruct update_dict as [[new|] [a|] [r|]];
    unfold update_row, status_transition, apply_fields; simpl;
    try reflexivity;
    destruct sta as [s|], com as [c|]; simpl;
    repeat (case_bool_decide; simpl in *); try reflexivity; congruence.
Qed.

(** X16. Sending the same update again, at any later time, changes
    nothing: the table and the row after the second [update_task] are those
    after the first. *)
Theorem repeated_update_is_absorbed (db : gmap string Task) (task_id : string)
    (update_dict : TaskUpdate) (now1 now2 : Z) (task : Task) :
  db !! task_id = Some task →
  ∃ db1 task1,
    update_task db task_id update_dict now1 = inr (db1, task1)
    ∧ update_task db1 task_id update_dict now2 = inr (db1, task1).
Proof.
  intros Hdb. unfold update_task. rewrite Hdb.
  eexists _, _. split; [reflexivity|].
  rewrite lookup_insert_eq, update_row_absorbs, insert_insert_eq. reflexivity.
Qed.

Lemma repeated_update_is_absorbed_witness :
  sample_db !! "task2" = Some task2
  ∧ ∃ db1 task1,
      update_task sample_db "task2" set_in_progress 500 = inr (db1, task1)
      ∧ update_task db1 "task2" set_in_progress 900 = inr (db1, task1).
Proof.
  assert (sample_db !! "task2" = Some task2) as Hdb by reflexivity.
  split; [exact Hdb|].
  exact (repeated_update_is_absorbed sample_db "task2" set_in_progress 500 900
           task2 Hdb).
Defined.

(** X17. [update_task] never touches the identity of a task, its session,
    type, priority, payload or creation time (so its place in the fetch
    order is kept), and never touches another row. *)
Theorem update_task_frame (db : gmap string Task) (task_id : string)
    (update_dict : TaskUpdate) (now : Z) (task : Task) :
  db !! task_id = Some task →
  ∃ db' task',
    update_task db task_id update_dict now = inr (db', task')
    ∧ db' !! task_id = Some task'
    ∧ (∀ other, other ≠ task_id → db' !! other = db !! other)
    ∧ id task' = id task ∧ session_id task' = session_id task
    ∧ type task' = type task ∧ priority task' = priority task
    ∧ payload task' = payload task ∧ created_at task' = created_at task
    ∧ (∀ t, fetch_order task' t ↔ fetch_order task t)
    ∧ (∀ t, fetch_order t task' ↔ fetch_order t task).
Proof.
  intros Hdb. unfold update_task. rewrite Hdb. eexists _, _.
  split; [reflexivity|]. split; [apply lookup_insert_eq|].
  split; [intros other Hne; by apply lookup_insert_ne|].
  assert (∀ t, priority (update_row now update_dict t) = priority t
               ∧ created_at (update_row now update_dict t) = created_at t
               ∧ id (update_row now update_dict t) = id t
               ∧ session_id (update_row now update_dict t) = session_id t
               ∧ type (update_row now update_dict t) = type t
               ∧ payload (update_row now update_dict t) = payload t) as Hfr.
  { intros t. unfold update_row, status_transition, apply_fields.
    destruct (u_status update_dict) as [new|], (u_agent_id update_dict),
      (u_result update_dict); simpl;
      repeat (match goal with |- context [if ?b then _ else _] => destruct b end);
      by simpl. }
  destruct (Hfr task) as (Hp & Hc & Hi & Hs & Ht & Hpl).
  repeat split; try done; unfold fetch_order; rewrite ?Hp, ?Hc; tauto.
Qed.

Lemma update_task_frame_witness :
  sample_db !! "task2" = Some task2
  ∧ ∃ db' task',
      update_task sample_db "task2" set_in_progress 500 = inr (db', task')
      ∧ priority task' = 5%Z ∧ created_at task' = 11%Z.
Proof.
  assert (sample_db !! "task2" = Some task2) as Hdb by reflexivity.
  split; [exact Hdb|].
  destruct (update_task_frame sample_db "task2" set_in_progress 500 task2 Hdb)
    as (db' & task' & Hu & _ & _ & _ & _ & _ & Hp & _ & Hc & _).
  exists db', task'. split; [exact Hu|]. by rewrite Hp, Hc.
Defined.

(** *** Creating and deleting *)

(** X18. A task that [create_task] stored is what [get_task] returns for
    its id, pending and without timestamps; every other row is as before;
    and [delete_task] of that id gives back the table there was before the
    creation. *)
Theorem create_get_delete (sessions : gmap string Session)
    (tasks : gmap string Task) (task_data : TaskCreate) (now : Z)
    (tasks' : gmap string Task) (task : Task) :
  create_task sessions tasks task_data now = inr (tasks', task) →
  get_task tasks (tc_id task_data) = inl (NotFound "Task not found")
  ∧ get_task tasks' (tc_id task_data) = inr task
  ∧ id task = tc_id task_data
  ∧ status task = Some "pending"
  ∧ started_at task = None ∧ completed_at task = None
  ∧ (∀ other, other ≠ tc_id task_data → tasks' !! other = tasks !! other)
  ∧ delete_task tasks' (tc_id task_data) = inr tasks.
Proof.
  unfold create_task, get_task, delete_task.
  destruct (sessions !! tc_session_id task_data); [|done].
  destruct (tasks !! tc_id task_data) eqn:E; [done|].
  intros [= <- <-]. rewrite lookup_insert_eq. simpl.
  repeat split; try done.
  - intros other Hne. by rewrite lookup_insert_ne.
  - by rewrite delete_insert_eq, delete_id.
Qed.

Lemma create_get_delete_witness :
  ∃ tasks' task,
    create_task one_session sample_db new_task 40 = inr (tasks', task)
    ∧ get_task tasks' "task9" = inr task
    ∧ delete_task tasks' "task9" = inr sample_db.
Proof.
  eexists _, _.
  assert (create_task one_session sample_db new_task 40
          = inr (<["task9" := mkTask "task9" "S1" None "feature" (Some "pending")
                                5 None None 40 None None]> sample_db,
                 mkTask "task9" "S1" None "feature" (Some "pending")
                        5 None None 40 None None)) as Hc by reflexivity.
  split; [exact Hc|].
  destruct (create_get_delete _ _ _ _ _ _ Hc) as (_ & Hg & _ & _ & _ & _ & _ & Hd).
  split; [exact Hg | exact Hd].
Defined.

(** What the queue is when it is built. *)
Lemma get_task_queue_inv all_tasks queue :
  get_task_queue all_tasks = Some queue →
  ∃ infos, Forall2 (λ t i, model_validate t = Some i) all_tasks infos
           ∧ queue = queue_of infos.
Proof.
  unfold get_task_queue. intros Hq.
  destruct (mapM model_validate all_tasks) as [infos|] eqn:Hm.
  - rewrite (queue_loop_app _ _ _ Hm) in Hq. injection Hq as <-.
    exists infos. split; [by apply mapM_Some | done].
  - by rewrite queue_loop_none in Hq.
Qed.

(** X19. Once [create_task] has stored a task, whatever the store answers
    to the ordered query for its session contains it, and a queue built
    from that answer has it in the pending bucket. *)
Theorem created_task_is_queued_pending (sessions : gmap string Session)
    (tasks tasks' : gmap string Task) (task_data : TaskCreate) (now : Z)
    (task : Task) (rows : list Task) (queue : TaskQueue) :
  create_task sessions tasks task_data now = inr (tasks', task) →
  task_query tasks' (Some (tc_session_id task_data)) rows →
  get_task_queue rows = Some queue →
  task ∈ rows
  ∧ ∃ info, model_validate task = Some info ∧ info ∈ pending queue.
Proof.
  intros Hc [Hperm _] Hq.
  assert (tasks' !! tc_id task_data = Some task
          ∧ session_id task = tc_session_id task_data
          ∧ status task = Some "pending") as (Hl & Hs & Hst).
  { unfold create_task in Hc.
    destruct (sessions !! tc_session_id task_data); [|done].
    destruct (tasks !! tc_id task_data); [done|].
    injection Hc as <- <-. by rewrite lookup_insert_eq. }
  assert (task ∈ rows) as Hin.
  { rewrite Hperm. unfold task_rows. apply list_elem_of_filter.
    split; [intros _; by rewrite Hs|].
    apply list_elem_of_fmap. exists (tc_id task_data, task).
    split; [done|]. by apply elem_of_map_to_list. }
  split; [exact Hin|].
  apply get_task_queue_inv in Hq as (infos & Hv & ->).
  apply list_elem_of_lookup in Hin as [n Hn].
  destruct (Forall2_lookup_l _ _ _ _ _ Hv Hn) as (info & Hi & Hvi).
  exists info. split; [exact Hvi|]. simpl. unfold bucket.
  apply list_elem_of_filter. split.
  - apply model_validate_status in Hvi. congruence.
  - apply list_elem_of_lookup. by exists n.
Qed.

Lemma created_task_is_queued_pending_witness :
  ∃ tasks' task rows queue,
    create_task one_session ∅ new_task 40 = inr (tasks', task)
    ∧ task_query tasks' (Some "S1") rows
    ∧ get_task_queue rows = Some queue
    ∧ task ∈ rows
    ∧ ∃ info, model_validate task = Some info ∧ info ∈ pending queue.
Proof.
  pose (task := mkTask "task9" "S1" None "feature" (Some "pending")
                       5 None None 40 None None).
  assert (create_task one_session ∅ new_task 40
          = inr (<["task9" := task]> ∅, task)) as Hc by reflexivity.
  assert (task_query (<["task9" := task]> ∅) (Some "S1") [task]) as Hq.
  { split; [|repeat constructor].
    unfold task_rows. rewrite insert_empty, map_to_list_singleton. simpl.
    rewrite filter_cons, decide_True by done. done. }
  assert (get_task_queue [task]
          = Some (queue_of [mkTaskInfo "feature" 5 None "task9" "pending" None None
                                       40 None None])) as Hg by reflexivity.
  eexists _, _, _, _. split; [exact Hc|]. split; [exact Hq|]. split; [exact Hg|].
  exact (created_task_is_queued_pending _ _ _ _ _ _ _ _ Hc Hq Hg).
Defined.

(** X20. A task taken through its life ([create_task], then an update
    writing in_progress at [t1], then one writing completed or failed at
    [t2]) ends with that status, [started_at = t1] and [completed_at = t2],
    so the time it is counted for is [t2 - t1]. *)
Theorem task_life_cycle (sessions : gmap string Session)
    (tasks tasks1 : gmap string Task) (task_data : TaskCreate) (t0 t1 t2 : Z)
    (task : Task) (start finish : TaskUpdate) (final : string) :
  create_task sessions tasks task_data t0 = inr (tasks1, task) →
  u_status start = Some (Some "in_progress") →
  u_status finish = Some (Some final) →
  final = "completed" ∨ final = "failed" →
  ∃ tasks2 tasks3 started ended,
    update_task tasks1 (tc_id task_data) start t1 = inr (tasks2, started)
    ∧ update_task tasks2 (tc_id task_data) finish t2 = inr (tasks3, ended)
    ∧ status ended = Some final
    ∧ started_at ended = Some t1
    ∧ completed_at ended = Some t2
    ∧ seconds_taken ended = Some (total_seconds (t2 - t1))
    ∧ created_at ended = t0.
Proof.
  intros Hc Hs Hf Hfinal.
  unfold create_task in Hc.
  destruct (sessions !! tc_session_id task_data); [|done].
  destruct (tasks !! tc_id task_data); [done|].
  injection Hc as <- <-.
  unfold update_task. rewrite lookup_insert_eq. eexists _, _, _, _.
  split; [reflexivity|]. rewrite lookup_insert_eq.
  split; [reflexivity|].
  unfold seconds_taken, update_row, status_transition, apply_fields.
  rewrite Hs, Hf. simpl.
  destruct (u_agent_id start), (u_result start), (u_agent_id finish),
    (u_result finish); simpl;
    destruct Hfinal as [-> | ->]; simpl; done.
Qed.

Lemma task_life_cycle_witness :
  ∃ tasks1 task tasks2 tasks3 started ended,
    create_task one_session sample_db new_task 40 = inr (tasks1, task)
    ∧ update_task tasks1 "task9" set_in_progress 50 = inr (tasks2, started)
    ∧ update_task tasks2 "task9" set_completed 90 = inr (tasks3, ended)
    ∧ seconds_taken ended = Some (total_seconds (90 - 50)).
Proof.
  assert (create_task one_session sample_db new_task 40
          = inr (<["task9" := mkTask "task9" "S1" None "feature" (Some "pending")
                                5 None None 40 None None]> sample_db,
                 mkTask "task9" "S1" None "feature" (Some "pending")
                        5 None None 40 None None)) as Hc by reflexivity.
  destruct (task_life_cycle one_session sample_db _ new_task 40 50 90 _
              set_in_progress set_completed "completed" Hc eq_refl eq_refl
              (or_introl eq_refl))
    as (tasks2 & tasks3 & started & ended & H1 & H2 & _ & _ & _ & Hsec & _).
  eexists _, _, tasks2, tasks3, started, ended.
  split; [exact Hc|]. split; [exact H1|]. split; [exact H2 | exact Hsec].
Defined.

(** *** Agents *)



(** X22. An agent that [create_agent] stored is what [get_agent] returns
    for its id: idle fields at their defaults (iteration 0, cost 0, no
    current task, no activity yet); the other agents are as before; and
    [delete_agent] of that id gives back the table there was. *)
Theorem create_get_delete_agent (sessions : gmap string Session)
    (agents agents' : gmap string Agent) (agent_data : AgentCreate) (now : Z)
    (agent : Agent) :
  create_agent sessions agents agent_data now = inr (agents', agent) →
  is_Some (sessions !! ac_session_id agent_data)
  ∧ get_agent agents (ac_id agent_data) = inl (NotFound "Agent not found")
  ∧ get_agent agents' (ac_id agent_data) = inr agent
  ∧ a_iteration agent = Some 0%Z ∧ a_cost agent = Some 0%Q
  ∧ a_current_task agent = None ∧ a_last_activity agent = None
  ∧ a_created_at agent = now
  ∧ (∀ other, other ≠ ac_id agent_data → agents' !! other = agents !! other)
  ∧ delete_agent agents' (ac_id agent_data) = inr agents.
Proof.
  unfold create_agent, get_agent, delete_agent.
  destruct (sessions !! ac_session_id agent_data); [|done].
  destruct (agents !! ac_id agent_data) eqn:E; [done|].
  intros [= <- <-]. rewrite lookup_insert_eq. simpl.
  split; [by eexists|]. do 7 (split; [done|]). split.
  - intros other Hne. by rewrite lookup_insert_ne.
  - by rewrite delete_insert_eq, delete_id.
Qed.

Lemma create_get_delete_agent_witness :
  ∃ agents' agent,
    create_agent one_session ∅ (mkAgentCreate "coder" "idle" "a1" "S1" None) 5
      = inr (agents', agent)
    ∧ get_agent agents' "a1" = inr agent
    ∧ delete_agent agents' "a1" = inr ∅.
Proof.
  assert (create_agent one_session ∅ (mkAgentCreate "coder" "idle" "a1" "S1" None) 5
          = inr (<["a1" := sample_agent]> ∅, sample_agent)) as Hc by reflexivity.
  destruct (create_get_delete_agent _ _ _ _ _ _ Hc)
    as (_ & _ & Hg & _ & _ & _ & _ & _ & _ & Hd).
  eexists _, _. split; [exact Hc|]. split; [exact Hg | exact Hd].
Defined.

(** *** Sessions *)





End StoreFacts.
